(** * Refresh-token rotation service: a shallow embedding and its properties

    This development embeds [src/modules/token/token.service.ts] together
    with the helpers it calls ([src/utils/jwt.ts], [src/utils/paginate.ts])
    and states the properties of the token core over that embedding.

    Modelling conventions.
    - A JavaScript [Date] is its epoch value in milliseconds, an integer.
      [d.setDate(d.getDate() + n)] is [d + n * 86400000]: calendar-day
      arithmetic in a time zone without clock changes (a server on UTC).
    - [null] and [undefined] are both [None], except where the source tells
      them apart (a destructuring default only replaces [undefined]).
    - The token table is a list of rows in storage order; [findFirst] and
      [findMany] without [orderBy] read it in that order.
    - Every source of non-determinism (the clock, random bytes, the JWT
      library, identifiers assigned by the database) is an oracle indexed by
      a cursor that advances at each draw, so two [new Date()] in one call
      may read different instants.
    - An [async] function is a program over store and oracle operations; it
      is run either to completion ([run]) or interleaved with another call
      at its [await] points ([interleave]).
    - Calls to the logger have no effect on the store or on results and are
      left out.
    - The store, [jwt.sign] and [strToDate] answer every operation: a
      rejected promise of theirs (a lost connection, a violated constraint)
      is outside the model, Prisma's P2025 of [update] and [delete] by id
      apart.  The service catches none of these, so what is said of the
      errors a call throws holds for the runs in which they answer. *)

From Stdlib Require Import ZArith List String Ascii Bool Lia.
Import ListNotations.
Local Open Scope Z_scope.

(* ------------------------------------------------------------------ *)
(** ** Data model *)

Module tokenType.
Inductive t := access | refresh.

Definition eqb (a b : t) : bool :=
  match a, b with
  | access, access | refresh, refresh => true
  | _, _ => false
  end.

(** The enum's run-time value is its name. *)
Definition to_string (a : t) : string :=
  match a with access => "access" | refresh => "refresh" end.
End tokenType.

(** JSON values, for the opaque [metadata] bag. *)
#[local] Unset Elimination Schemes.
Inductive Json :=
| JNull
| JBool (b : bool)
| JNumber (n : Z)
| JString (s : string)
| JArray (items : list Json)
| JObject (fields : list (string * Json)).
#[local] Set Elimination Schemes.

(** Modelled from the spec: the Prisma schema of the [token] table is not
    among the sources.  The columns are those the service reads and writes
    and the spec's data model lists: [token] is the spec's tokenValue,
    [tokenFamily] its family, [replacesTokenId] its replaces, [isRevoked]
    its revoked.  Columns the service tests against [null] or never supplies
    on [create] are nullable. *)
Record Token := {
  id : string;
  userId : string;
  token : string;
  type : tokenType.t;
  deviceId : option string;
  deviceName : option string;
  userAgent : option string;
  ipAddress : option string;
  tokenFamily : option string;
  replacesTokenId : option string;
  rememberMe : bool;
  metadata : Json;
  isRevoked : bool;
  revokedAt : option Z;
  revokedReason : option string;
  useCount : Z;
  expiresAt : option Z;
  createdAt : Z;
  lastUsedAt : option Z
}.

(** [IToken]: the session context handed to the issuer and to rotation
    (the fields those two functions read). *)
Module IToken.
Record t := {
  userId : string;
  deviceId : option string;
  deviceName : option string;
  ipAddress : option string;
  userAgent : option string;
  rememberMe : option bool;
  metadata : option Json
}.
End IToken.

(** The argument object of [saveToken]. *)
Module SaveTokenOpts.
Record t := {
  userId : string;
  token : string;
  deviceId : option string;
  ipAddress : option string;
  userAgent : option string;
  deviceName : option string;
  rememberMe : option bool;
  tokenFamily : option string;
  replacesTokenId : option string;
  type : option tokenType.t;
  metadata : option Json;
  expiresAt : option Z
}.
End SaveTokenOpts.

(** [JWTPayload] of [utils/jwt.ts] (the claims this core reads or sets). *)
Module JWTPayload.
Record t := {
  sub : string;
  type : string;
  jti : option string
}.
End JWTPayload.

(** What [jsonwebtoken]'s [verify] does: it returns the claims or throws an
    error with a [name]. *)
Inductive JwtOutcome :=
| JwtVerified (p : JWTPayload.t)
| JwtThrows (name : string).

Record ApiError := { statusCode : Z; message : string }.

Inductive Exn :=
| ApiErr (e : ApiError)
| PrismaKnownRequestError (code : string)
| JsError (msg : string).

Module status.
Definition UNAUTHORIZED : Z := 401.
Definition FORBIDDEN : Z := 403.
Definition NOT_FOUND : Z := 404.
End status.

Module Issued.
Record t := { token : string; expiresAt : Z }.
End Issued.

Record TokenPair := { access : Issued.t; refresh : Issued.t }.

(** [env.jwt] of the configuration. *)
Record Env := {
  expiryAccessToken : string;
  expiryRefreshToken : string
}.

(* ------------------------------------------------------------------ *)
(** ** Row updates *)

(** [data] of the rotation update: [lastUsedAt], [useCount: {increment: 1}],
    [isRevoked], [revokedReason]. *)
Definition data_rotated (d : Z) (r : Token) : Token :=
  {| id := id r; userId := userId r; token := token r; type := type r;
     deviceId := deviceId r; deviceName := deviceName r;
     userAgent := userAgent r; ipAddress := ipAddress r;
     tokenFamily := tokenFamily r; replacesTokenId := replacesTokenId r;
     rememberMe := rememberMe r; metadata := metadata r;
     isRevoked := true;
     revokedAt := revokedAt r;
     revokedReason := Some "Token rotated"%string;
     useCount := useCount r + 1;
     expiresAt := expiresAt r; createdAt := createdAt r;
     lastUsedAt := Some d |}.

(** [data] of every revoking update: [isRevoked], [revokedAt],
    [revokedReason]. *)
Definition data_revoked (d : Z) (reason : string) (r : Token) : Token :=
  {| id := id r; userId := userId r; token := token r; type := type r;
     deviceId := deviceId r; deviceName := deviceName r;
     userAgent := userAgent r; ipAddress := ipAddress r;
     tokenFamily := tokenFamily r; replacesTokenId := replacesTokenId r;
     rememberMe := rememberMe r; metadata := metadata r;
     isRevoked := true;
     revokedAt := Some d;
     revokedReason := Some reason;
     useCount := useCount r;
     expiresAt := expiresAt r; createdAt := createdAt r;
     lastUsedAt := lastUsedAt r |}.

(* ------------------------------------------------------------------ *)
(** ** Small helpers on nullable values and strings *)

Definition opt_str_eqb (a : option string) (b : string) : bool :=
  match a with Some s => String.eqb s b | None => false end.

(** JavaScript truthiness of a nullable string. *)
Definition truthy (a : option string) : bool :=
  match a with Some s => negb (String.eqb s "") | None => false end.

(** [a ?? b] *)
Definition nullish {A} (a b : option A) : option A :=
  match a with Some _ => a | None => b end.

(** [a || b] on a nullable string with a string fallback. *)
Definition or_else (a : option string) (b : string) : string :=
  match a with
  | Some s => if String.eqb s "" then b else s
  | None => b
  end.

(** [x < bound] on a nullable column: a [null] never matches. *)
Definition opt_lt (x : option Z) (bound : Z) : bool :=
  match x with Some v => v <? bound | None => false end.

Definition opt_gt (x : option Z) (bound : Z) : bool :=
  match x with Some v => bound <? v | None => false end.

Definition msPerDay : Z := 86400000.

(** [d.setDate(d.getDate() + n)] *)
Definition addDays (d n : Z) : Z := d + n * msPerDay.

Definition lower_ascii (c : ascii) : ascii :=
  let n := nat_of_ascii c in
  if andb (Nat.leb 65 n) (Nat.leb n 90) then ascii_of_nat (n + 32) else c.

Fixpoint lower (s : string) : string :=
  match s with
  | EmptyString => EmptyString
  | String c s' => String (lower_ascii c) (lower s')
  end.

Fixpoint contains (needle hay : string) : bool :=
  if String.prefix needle hay then true
  else match hay with
       | EmptyString => false
       | String _ hay' => contains needle hay'
       end.

(** [{ contains: needle, mode: "insensitive" }] *)
Definition contains_insensitive (needle hay : string) : bool :=
  contains (lower needle) (lower hay).

(* ------------------------------------------------------------------ *)
(** ** Effects: oracles, the store, programs *)

(** The environment a call draws from; the [nat] is the cursor of the
    world at the draw. *)
Record Oracle := {
  clock : nat -> Z;                       (* [new Date()], [Date.now()] *)
  randomBytesHex : nat -> string;         (* [crypto.randomBytes(16).toString("hex")] *)
  jwt_sign : nat -> JWTPayload.t -> string -> string;   (* [jwt.sign] *)
  jwt_verify : nat -> string -> JwtOutcome;             (* [jwt.verify] *)
  strToDate : nat -> string -> Z;         (* [utils/date], not among the sources *)
  db_uuid : nat -> string;                (* the [id] the store assigns *)
  db_now : nat -> Z;                      (* the [createdAt] the store assigns *)
  userEmail : string -> string            (* the [user] relation of a row *)
}.

Record World := { tokens : list Token; cursor : nat }.

Definition tick (w : World) : World :=
  {| tokens := tokens w; cursor := S (cursor w) |}.

Definition with_tokens (w : World) (l : list Token) : World :=
  {| tokens := l; cursor := cursor w |}.

(** One operation of a call and the type of its answer.  The [prisma.token]
    operations are the ones a call awaits. *)
Inductive Op : Type -> Type :=
| NewDate : Op Z
| RandomBytesHex : Op string
| JwtSign (p : JWTPayload.t) (expiresIn : string) : Op string
| JwtVerify (t : string) : Op JwtOutcome
| StrToDate (s : string) : Op Z
| TokenFindFirst (where_ : Token -> bool) : Op (option Token)
| TokenFindMany (where_ : Token -> bool)
    (orderBy : option (Token -> Token -> bool)) (skip take : option Z)
  : Op (list Token)
| TokenCount (where_ : Token -> bool) : Op Z
| TokenCreate (row : string -> Z -> Token) : Op Token
| TokenUpdate (id_ : string) (data : Token -> Token) : Op bool
| TokenUpdateMany (where_ : Token -> bool) (data : Token -> Token) : Op Z
| TokenDelete (id_ : string) : Op bool
| TokenDeleteMany (where_ : Token -> bool) : Op Z.

Definition isAwait {X} (op : Op X) : bool :=
  match op with
  | NewDate | RandomBytesHex | JwtSign _ _ | JwtVerify _ | StrToDate _ => false
  | _ => true
  end.

Definition has_id (i : string) (r : Token) : bool := String.eqb (id r) i.

Definition update_where (p : Token -> bool) (f : Token -> Token)
  (l : list Token) : list Token :=
  map (fun r => if p r then f r else r) l.

Definition count_where (p : Token -> bool) (l : list Token) : Z :=
  Z.of_nat (List.length (filter p l)).

Definition delete_where (p : Token -> bool) (l : list Token) : list Token :=
  filter (fun r => negb (p r)) l.

Fixpoint insert_by (le : Token -> Token -> bool) (x : Token)
  (l : list Token) : list Token :=
  match l with
  | [] => [x]
  | y :: l' => if le x y then x :: l else y :: insert_by le x l'
  end.

Definition sort_by (le : Token -> Token -> bool) (l : list Token) : list Token :=
  fold_right (insert_by le) [] l.

Definition opt_skip (n : option Z) (l : list Token) : list Token :=
  match n with Some k => skipn (Z.to_nat k) l | None => l end.

Definition opt_take (n : option Z) (l : list Token) : list Token :=
  match n with Some k => firstn (Z.to_nat k) l | None => l end.

(** What one operation answers and how it changes the world.  [update] and
    [delete] address a row by its unique [id] and answer [false] when no
    row has it (Prisma's P2025).  Every operation answers: a store or a
    library that rejects is outside the model. *)
Definition exec (o : Oracle) {X} (op : Op X) (w : World) : X * World :=
  match op in Op X return X * World with
  | NewDate => (clock o (cursor w), tick w)
  | RandomBytesHex => (randomBytesHex o (cursor w), tick w)
  | JwtSign p e => (jwt_sign o (cursor w) p e, tick w)
  | JwtVerify t => (jwt_verify o (cursor w) t, tick w)
  | StrToDate s => (strToDate o (cursor w) s, tick w)
  | TokenFindFirst p => (find p (tokens w), w)
  | TokenFindMany p ord sk tk =>
      let rows := filter p (tokens w) in
      let rows := match ord with Some le => sort_by le rows | None => rows end in
      (opt_take tk (opt_skip sk rows), w)
  | TokenCount p => (count_where p (tokens w), w)
  | TokenCreate row =>
      let r := row (db_uuid o (cursor w)) (db_now o (cursor w)) in
      (r, tick (with_tokens w (tokens w ++ [r])))
  | TokenUpdate i f =>
      (existsb (has_id i) (tokens w),
       with_tokens w (update_where (has_id i) f (tokens w)))
  | TokenUpdateMany p f =>
      (count_where p (tokens w), with_tokens w (update_where p f (tokens w)))
  | TokenDelete i =>
      (existsb (has_id i) (tokens w),
       with_tokens w (delete_where (has_id i) (tokens w)))
  | TokenDeleteMany p =>
      (count_where p (tokens w), with_tokens w (delete_where p (tokens w)))
  end.

(** An [async] function: a tree of operations ending in a value or in a
    thrown exception. *)
Inductive Prog (A : Type) : Type :=
| Ret (a : A)
| Throw (e : Exn)
| Vis (X : Type) (op : Op X) (k : X -> Prog A).

Arguments Ret {A} a.
Arguments Throw {A} e.
Arguments Vis {A X} op k.

Fixpoint bind {A B} (p : Prog A) (f : A -> Prog B) : Prog B :=
  match p with
  | Ret a => f a
  | Throw e => Throw e
  | Vis op k => Vis op (fun x => bind (k x) f)
  end.

(** [try { p } catch (e) { h e }] *)
Fixpoint tryCatch {A} (p : Prog A) (h : Exn -> Prog A) : Prog A :=
  match p with
  | Ret a => Ret a
  | Throw e => h e
  | Vis op k => Vis op (fun x => tryCatch (k x) h)
  end.

Definition perform {X} (op : Op X) : Prog X := Vis op Ret.

Notation "x <- p ;; q" := (bind p (fun x => q))
  (at level 61, p at next level, right associativity).
Notation "p ;;; q" := (bind p (fun _ => q))
  (at level 61, right associativity).

Definition throwApi {A} (code : Z) (msg : string) : Prog A :=
  Throw (ApiErr {| statusCode := code; message := msg |}).

(** Running a call to completion, with no other call in between. *)
Fixpoint run {A} (o : Oracle) (p : Prog A) (w : World) : World * (Exn + A) :=
  match p with
  | Ret a => (w, inr a)
  | Throw e => (w, inl e)
  | Vis op k => let (x, w') := exec o op w in run o (k x) w'
  end.

(** Resuming a suspended call: it runs up to and including the next store
    operation it awaits, or to its end. *)
Fixpoint resume {A} (o : Oracle) (p : Prog A) (w : World) : Prog A * World :=
  match p with
  | Vis op k =>
      let (x, w') := exec o op w in
      if isAwait op then (k x, w') else resume o (k x) w'
  | _ => (p, w)
  end.

(** Two calls on one event loop; the schedule names the call resumed at
    each turn ([true] for the first). *)
Fixpoint interleave {A} (o : Oracle) (sched : list bool)
  (p q : Prog A) (w : World) : Prog A * Prog A * World :=
  match sched with
  | [] => (p, q, w)
  | true :: s => let (p', w') := resume o p w in interleave o s p' q w'
  | false :: s => let (q', w') := resume o q w in interleave o s p q' w'
  end.

Definition finished {A} (p : Prog A) : bool :=
  match p with Vis _ _ => false | _ => true end.

Definition succeeded {A} (p : Prog A) : bool :=
  match p with Ret _ => true | _ => false end.

(* ------------------------------------------------------------------ *)
(** ** [prisma.token]: the calls that throw *)

Module prisma.
Definition update (i : string) (data : Token -> Token) : Prog unit :=
  found <- perform (TokenUpdate i data) ;;
  if found then Ret tt else Throw (PrismaKnownRequestError "P2025").

Definition delete (i : string) : Prog unit :=
  found <- perform (TokenDelete i) ;;
  if found then Ret tt else Throw (PrismaKnownRequestError "P2025").
End prisma.

(* ------------------------------------------------------------------ *)
(** ** [utils/jwt.ts] *)

Module jwt.
Definition verifyToken (t : string) : Prog JWTPayload.t :=
  r <- perform (JwtVerify t) ;;
  match r with
  | JwtVerified p => Ret p
  | JwtThrows name =>
      if String.eqb name "TokenExpiredError"
      then throwApi status.UNAUTHORIZED "Token has expired"
      else if String.eqb name "JsonWebTokenError"
      then throwApi status.FORBIDDEN "Invalid token"
      else if String.eqb name "NotBeforeError"
      then throwApi status.FORBIDDEN "Token not yet valid"
      else throwApi status.FORBIDDEN "Token verification failed"
  end.

Definition generateToken (payload : JWTPayload.t) (expiresIn : string)
  : Prog string :=
  jti <- (match JWTPayload.jti payload with
          | Some j => if String.eqb j "" then perform RandomBytesHex else Ret j
          | None => perform RandomBytesHex
          end) ;;
  perform (JwtSign {| JWTPayload.sub := JWTPayload.sub payload;
                      JWTPayload.type := JWTPayload.type payload;
                      JWTPayload.jti := Some jti |} expiresIn).
End jwt.

(* ------------------------------------------------------------------ *)
(** ** [utils/paginate.ts], at the token model *)

Module PaginationOptions.
Record t := {
  limit : option Z;
  page : option Z;
  maxLimit : option Z;
  sort : option (Token -> Token -> bool)
}.
End PaginationOptions.

Record Pagination := {
  total : Z;
  page : Z;
  limit : Z;
  totalPages : Z;
  hasNextPage : bool;
  hasPrevPage : bool
}.

Record PaginationResult := { data : list Token; pagination : Pagination }.

Definition or_default {A} (a : option A) (d : A) : A :=
  match a with Some x => x | None => d end.

(** [Math.ceil(a / b)], for a positive [b]. *)
Definition ceil_div (a b : Z) : Z := - ((- a) / b).

(** The two queries of [Promise.all] are read-only; they are issued in the
    order of the array. *)
Definition paginate (options : PaginationOptions.t) (filters : Token -> bool)
  : Prog PaginationResult :=
  let limit := or_default (PaginationOptions.limit options) 10 in
  let page := or_default (PaginationOptions.page options) 1 in
  let maxLimit := or_default (PaginationOptions.maxLimit options) 100 in
  let sort := PaginationOptions.sort options in
  let sanitizedLimit := Z.min (Z.max 1 limit) maxLimit in
  let sanitizedPage := Z.max 1 page in
  let skip := (sanitizedPage - 1) * sanitizedLimit in
  data <- perform (TokenFindMany filters sort (Some skip) (Some sanitizedLimit)) ;;
  total <- perform (TokenCount filters) ;;
  let totalPages := ceil_div total sanitizedLimit in
  Ret {| data := data;
         pagination := {| total := total;
                          page := sanitizedPage;
                          limit := sanitizedLimit;
                          totalPages := totalPages;
                          hasNextPage := sanitizedPage <? totalPages;
                          hasPrevPage := 1 <? sanitizedPage |} |}.

(* ------------------------------------------------------------------ *)
(** ** [modules/token/token.service.ts] *)

Definition saveToken (opts : SaveTokenOpts.t) : Prog Token :=
  let userId_ := SaveTokenOpts.userId opts in
  let token_ := SaveTokenOpts.token opts in
  let deviceId_ := SaveTokenOpts.deviceId opts in
  let ipAddress_ := SaveTokenOpts.ipAddress opts in
  let userAgent_ := SaveTokenOpts.userAgent opts in
  let deviceName_ := SaveTokenOpts.deviceName opts in
  let rememberMe_ := or_default (SaveTokenOpts.rememberMe opts) false in
  let tokenFamily_ := SaveTokenOpts.tokenFamily opts in
  let replacesTokenId_ := SaveTokenOpts.replacesTokenId opts in
  let type_ := or_default (SaveTokenOpts.type opts) tokenType.refresh in
  let metadata_ := or_default (SaveTokenOpts.metadata opts) (JObject []) in
  expiresAt_ <- (match SaveTokenOpts.expiresAt opts with
                 | Some d => Ret d
                 | None => perform NewDate
                 end) ;;
  perform (TokenCreate (fun newId now =>
    {| id := newId;
       userId := userId_;
       token := token_;
       type := type_;
       deviceId := deviceId_;
       deviceName := deviceName_;
       userAgent := userAgent_;
       ipAddress := ipAddress_;
       tokenFamily := tokenFamily_;
       replacesTokenId := replacesTokenId_;
       rememberMe := rememberMe_;
       metadata := metadata_;
       isRevoked := false;
       revokedAt := None;
       revokedReason := None;
       useCount := 0;
       expiresAt := Some expiresAt_;
       createdAt := now;
       lastUsedAt := None |})).

Definition truthy_bool (b : option bool) : bool := or_default b false.

Definition generateLoginTokens (env : Env) (opts : IToken.t) : Prog TokenPair :=
  let userId_ := IToken.userId opts in
  let rememberMe_ := IToken.rememberMe opts in
  accessToken <- jwt.generateToken
      {| JWTPayload.sub := userId_;
         JWTPayload.type := tokenType.to_string tokenType.access;
         JWTPayload.jti := None |} (expiryAccessToken env) ;;
  refreshToken <- jwt.generateToken
      {| JWTPayload.sub := userId_;
         JWTPayload.type := tokenType.to_string tokenType.refresh;
         JWTPayload.jti := None |} (expiryRefreshToken env) ;;
  tokenFamily_ <- perform RandomBytesHex ;;
  let expirationDays := if truthy_bool rememberMe_ then 30 else 7 in
  today <- perform NewDate ;;
  let expiresAt_ := addDays today expirationDays in
  saveToken {| SaveTokenOpts.userId := userId_;
               SaveTokenOpts.token := refreshToken;
               SaveTokenOpts.deviceId := IToken.deviceId opts;
               SaveTokenOpts.deviceName := IToken.deviceName opts;
               SaveTokenOpts.ipAddress := IToken.ipAddress opts;
               SaveTokenOpts.userAgent := IToken.userAgent opts;
               SaveTokenOpts.expiresAt := Some expiresAt_;
               SaveTokenOpts.rememberMe := rememberMe_;
               SaveTokenOpts.tokenFamily := Some tokenFamily_;
               SaveTokenOpts.replacesTokenId := None;
               SaveTokenOpts.type := None;
               SaveTokenOpts.metadata := IToken.metadata opts |} ;;;
  accessExpiresAt <- perform (StrToDate (expiryAccessToken env)) ;;
  Ret {| access := {| Issued.token := accessToken;
                      Issued.expiresAt := accessExpiresAt |};
         refresh := {| Issued.token := refreshToken;
                       Issued.expiresAt := expiresAt_ |} |}.

(** The [where] of the lookup in [refreshAuth] and of [revokeRefreshToken]. *)
Definition live_refresh_with (t : string) (r : Token) : bool :=
  String.eqb (token r) t && tokenType.eqb (type r) tokenType.refresh
  && negb (isRevoked r).

Definition in_family (f : option string) (r : Token) : bool :=
  match f with Some s => opt_str_eqb (tokenFamily r) s | None => false end.

Definition InvalidSignature : Exn :=
  ApiErr {| statusCode := status.FORBIDDEN;
            message := "Invalid refresh token (signature)." |}.
Definition NotARefreshToken : Exn :=
  ApiErr {| statusCode := status.FORBIDDEN;
            message := "Token is not a refresh token." |}.
Definition TokenNotFound : Exn :=
  ApiErr {| statusCode := status.FORBIDDEN;
            message := "Refresh token not found or revoked." |}.
Definition TokenExpired : Exn :=
  ApiErr {| statusCode := status.FORBIDDEN;
            message := "Refresh token expired." |}.
Definition ReuseDetected : Exn :=
  ApiErr {| statusCode := status.FORBIDDEN;
            message := "Token reuse detected - all sessions revoked for security" |}.

Definition reuseReason : string := "Token family revoked due to reuse".

Definition refreshAuth (env : Env) (refreshToken : string) (opts : IToken.t)
  : Prog TokenPair :=
  payload <- tryCatch (jwt.verifyToken refreshToken)
                      (fun _ => Throw InvalidSignature) ;;
  if negb (String.eqb (JWTPayload.type payload) "refresh")
  then Throw NotARefreshToken
  else
  found <- perform (TokenFindFirst (live_refresh_with refreshToken)) ;;
  match found with
  | None => Throw TokenNotFound
  | Some tokenDoc =>
    expired <- (match expiresAt tokenDoc with
                | Some e => now <- perform NewDate ;; Ret (e <? now)
                | None => Ret false
                end) ;;
    if (expired : bool) then
      tryCatch (prisma.delete (id tokenDoc)) (fun _ => Ret tt) ;;;
      Throw TokenExpired
    else if 0 <? useCount tokenDoc then
      (if truthy (tokenFamily tokenDoc) then
         d <- perform NewDate ;;
         perform (TokenUpdateMany (in_family (tokenFamily tokenDoc))
                                  (data_revoked d reuseReason)) ;;;
         Ret tt
       else Ret tt) ;;;
      Throw ReuseDetected
    else
      d <- perform NewDate ;;
      prisma.update (id tokenDoc) (data_rotated d) ;;;
      let userId_ := JWTPayload.sub payload in
      newAccessToken <- jwt.generateToken
          {| JWTPayload.sub := userId_;
             JWTPayload.type := tokenType.to_string tokenType.access;
             JWTPayload.jti := None |} (expiryAccessToken env) ;;
      newRefreshToken <- jwt.generateToken
          {| JWTPayload.sub := userId_;
             JWTPayload.type := tokenType.to_string tokenType.refresh;
             JWTPayload.jti := None |} (expiryRefreshToken env) ;;
      let expirationDays := if rememberMe tokenDoc then 30 else 7 in
      today <- perform NewDate ;;
      let newExpiresAt := addDays today expirationDays in
      saveToken {| SaveTokenOpts.userId := userId_;
                   SaveTokenOpts.token := newRefreshToken;
                   SaveTokenOpts.deviceId :=
                     nullish (IToken.deviceId opts) (deviceId tokenDoc);
                   SaveTokenOpts.deviceName := deviceName tokenDoc;
                   SaveTokenOpts.ipAddress :=
                     nullish (IToken.ipAddress opts) (ipAddress tokenDoc);
                   SaveTokenOpts.userAgent :=
                     nullish (IToken.userAgent opts) (userAgent tokenDoc);
                   SaveTokenOpts.expiresAt := Some newExpiresAt;
                   SaveTokenOpts.rememberMe := Some (rememberMe tokenDoc);
                   SaveTokenOpts.tokenFamily := tokenFamily tokenDoc;
                   SaveTokenOpts.replacesTokenId := Some (id tokenDoc);
                   SaveTokenOpts.type := None;
                   SaveTokenOpts.metadata := Some (metadata tokenDoc) |} ;;;
      accessExpiresAt <- perform (StrToDate (expiryAccessToken env)) ;;
      Ret {| access := {| Issued.token := newAccessToken;
                          Issued.expiresAt := accessExpiresAt |};
             refresh := {| Issued.token := newRefreshToken;
                           Issued.expiresAt := newExpiresAt |} |}
  end.

Definition revokeRefreshToken (t : string) (reason : option string)
  : Prog bool :=
  let reason_ := or_default reason "user_logout"%string in
  d <- perform NewDate ;;
  count <- perform (TokenUpdateMany (live_refresh_with t)
                                    (data_revoked d reason_)) ;;
  Ret (0 <? count).

Definition revokeAllForUser (u : string) (reason : option string)
  : Prog bool :=
  d <- perform NewDate ;;
  perform (TokenUpdateMany
             (fun r => String.eqb (userId r) u
                       && tokenType.eqb (type r) tokenType.refresh
                       && negb (isRevoked r))
             (data_revoked d (or_else reason "User logged out from all devices"))) ;;;
  Ret true.

Definition InvalidAccessToken : Exn :=
  ApiErr {| statusCode := status.UNAUTHORIZED;
            message := "Invalid access token." |}.

Definition verifyAccessToken (rawAccessToken : string) : Prog JWTPayload.t :=
  tryCatch
    (payload <- jwt.verifyToken rawAccessToken ;;
     if negb (String.eqb (JWTPayload.type payload)
                         (tokenType.to_string tokenType.access))
     then Throw (JsError "invalid token type")
     else Ret payload)
    (fun _ => Throw InvalidAccessToken).

Module SessionFilters.
Record t := { email : option string; type : option tokenType.t }.
End SessionFilters.

(** [queryFilters] as the predicate Prisma evaluates: the relation filter
    on [user.email] and the equality on [type]. *)
Definition queryFilters (o : Oracle) (filters : SessionFilters.t)
  (r : Token) : bool :=
  (if truthy (SessionFilters.email filters)
   then contains_insensitive (or_else (SessionFilters.email filters) "")
                             (userEmail o (userId r))
   else true)
  && match SessionFilters.type filters with
     | Some ty => tokenType.eqb (type r) ty
     | None => true
     end.

Definition listUserSessions (o : Oracle) (options : PaginationOptions.t)
  (filters : SessionFilters.t) : Prog PaginationResult :=
  paginate options (queryFilters o filters).

Definition SessionNotFound : Exn :=
  ApiErr {| statusCode := status.NOT_FOUND; message := "Session not found" |}.

Definition revokeSession (u sessionId : string) : Prog bool :=
  found <- perform (TokenFindFirst
                      (fun r => String.eqb (id r) sessionId
                                && String.eqb (userId r) u
                                && tokenType.eqb (type r) tokenType.refresh)) ;;
  match found with
  | None => Throw SessionNotFound
  | Some _ =>
      d <- perform NewDate ;;
      prisma.update sessionId (data_revoked d "Revoked by user") ;;;
      Ret true
  end.

(** The [where] of the sweep. *)
Definition sweepable (now thirtyDaysAgo : Z) (r : Token) : bool :=
  opt_lt (expiresAt r) now
  || (isRevoked r && opt_lt (revokedAt r) thirtyDaysAgo).

Definition cleanupExpiredTokens : Prog Z :=
  today <- perform NewDate ;;
  let thirtyDaysAgo := addDays today (-30) in
  now <- perform NewDate ;;
  count <- perform (TokenDeleteMany (sweepable now thirtyDaysAgo)) ;;
  Ret count.

(* ------------------------------------------------------------------ *)
(** ** Vocabulary of the properties *)

(** The presented string passes the codec at the start of the call and
    carries the refresh kind. *)
Definition verifies_as_refresh (o : Oracle) (w : World) (tok : string)
  (payload : JWTPayload.t) : Prop :=
  jwt_verify o (cursor w) tok = JwtVerified payload
  /\ JWTPayload.type payload = "refresh"%string.

(** The live record the lookup of [refreshAuth] matches. *)
Definition matches_live (w : World) (tok : string) (doc : Token) : Prop :=
  find (live_refresh_with tok) (tokens w) = Some doc.

(** The instant [Date.now()] yields in the expiry check: the second draw of
    the call, after the codec's. *)
Definition checkInstant (o : Oracle) (w : World) : Z := clock o (S (cursor w)).

Definition expiredAt (now : Z) (r : Token) : bool := opt_lt (expiresAt r) now.

(** The cursor once verification and the expiry check are done; the check
    draws from the clock only when [expiresAt] is not [null]. *)
Definition cursorAfterChecks (w : World) (doc : Token) : nat :=
  match expiresAt doc with
  | Some _ => S (S (cursor w))
  | None => S (cursor w)
  end.

(** [d] was read from the clock between two worlds of one call. *)
Definition readDuring (o : Oracle) (w w' : World) (d : Z) : Prop :=
  exists n, (cursor w <= n < cursor w')%nat /\ d = clock o n.

(** [revokedAt] and [revokedReason] are both set or both absent. *)
Definition revocationPaired (r : Token) : bool :=
  match revokedAt r, revokedReason r with
  | Some _, Some _ | None, None => true
  | _, _ => false
  end.

Definition sameFamily (a b : Token) : Prop := tokenFamily a = tokenFamily b.

(* ------------------------------------------------------------------ *)
(** ** The session listing of the second copy of the service

    A second copy of the service among the sources (its file name is not
    known) lists the sessions of one user with an explicit [select]. *)

Module part_010.
Record SessionSummary := {
  id : string;
  deviceId : option string;
  deviceName : option string;
  ipAddress : option string;
  userAgent : option string;
  createdAt : Z;
  lastUsedAt : option Z;
  expiresAt : option Z;
  rememberMe : bool;
  metadata : Json
}.
End part_010.

(** The [select] of that listing. *)
Definition select_summary (r : Token) : part_010.SessionSummary :=
  {| part_010.id := id r;
     part_010.deviceId := deviceId r;
     part_010.deviceName := deviceName r;
     part_010.ipAddress := ipAddress r;
     part_010.userAgent := userAgent r;
     part_010.createdAt := createdAt r;
     part_010.lastUsedAt := lastUsedAt r;
     part_010.expiresAt := expiresAt r;
     part_010.rememberMe := rememberMe r;
     part_010.metadata := metadata r |}.

(** [orderBy: { lastUsedAt: "desc" }]; a descending order puts [null]
    first, as PostgreSQL does. *)
Definition lastUsedAt_desc (a b : Token) : bool :=
  match lastUsedAt a, lastUsedAt b with
  | None, _ => true
  | Some _, None => false
  | Some x, Some y => y <=? x
  end.

Definition listUserSessions_selected (u : string)
  : Prog (list part_010.SessionSummary) :=
  now <- perform NewDate ;;
  rows <- perform (TokenFindMany
                     (fun r => String.eqb (userId r) u
                               && tokenType.eqb (type r) tokenType.refresh
                               && negb (isRevoked r)
                               && opt_gt (expiresAt r) now)
                     (Some lastUsedAt_desc) None None) ;;
  Ret (map select_summary rows).

(* ------------------------------------------------------------------ *)
(** ** The claims as the specification words them *)

(** Reuse of a live record revokes every record of its family. *)
Definition reuse_revokes_whole_family (o : Oracle) (env : Env) (w : World)
  (tok : string) (opts : IToken.t) : Prop :=
  forall payload doc,
    verifies_as_refresh o w tok payload ->
    matches_live w tok doc ->
    expiredAt (checkInstant o w) doc = false ->
    0 < useCount doc ->
    exists w' d,
      run o (refreshAuth env tok opts) w = (w', inl ReuseDetected)
      /\ forall r, In r (tokens w') -> sameFamily r doc ->
           isRevoked r = true /\ revokedAt r = Some d
           /\ revokedReason r = Some reuseReason.

(** Of two calls presenting the same fresh token, however they are
    interleaved, exactly one returns a pair. *)
Definition rotation_is_atomic (o : Oracle) (env : Env) (w : World)
  (tok : string) (optsA optsB : IToken.t) : Prop :=
  forall payload doc,
    verifies_as_refresh o w tok payload ->
    matches_live w tok doc ->
    expiredAt (checkInstant o w) doc = false ->
    useCount doc = 0 ->
    forall sched pA pB w',
      interleave o sched (refreshAuth env tok optsA)
                         (refreshAuth env tok optsB) w = (pA, pB, w') ->
      finished pA = true -> finished pB = true ->
      xorb (succeeded pA) (succeeded pB) = true.

(** A rotation of a fresh token stamps the presented record with
    [useCount = 1], [isRevoked] and the reason ["rotated"]. *)
Definition rotation_marks_rotated (o : Oracle) (env : Env) (w : World)
  (tok : string) (opts : IToken.t) : Prop :=
  forall payload doc,
    verifies_as_refresh o w tok payload ->
    matches_live w tok doc ->
    expiredAt (checkInstant o w) doc = false ->
    useCount doc = 0 ->
    exists w' pair r,
      run o (refreshAuth env tok opts) w = (w', inr pair)
      /\ In r (tokens w') /\ id r = id doc
      /\ useCount r = 1 /\ isRevoked r = true
      /\ revokedReason r = Some "rotated"%string.

(** A fresh token yields a pair once: of two calls presenting it, however
    they are scheduled, never do both return a pair. *)
Definition rotation_succeeds_once (o : Oracle) (env : Env) (w : World)
  (tok : string) (optsA optsB : IToken.t) : Prop :=
  forall payload doc,
    verifies_as_refresh o w tok payload ->
    matches_live w tok doc ->
    expiredAt (checkInstant o w) doc = false ->
    useCount doc = 0 ->
    forall sched pA pB w',
      interleave o sched (refreshAuth env tok optsA)
                         (refreshAuth env tok optsB) w = (pA, pB, w') ->
      succeeded pA && succeeded pB = false.

Definition rotation_as_worded (o : Oracle) (env : Env) (w : World)
  (tok : string) (optsA optsB : IToken.t) : Prop :=
  rotation_marks_rotated o env w tok optsA
  /\ rotation_succeeds_once o env w tok optsA optsB.

(** A sweep that follows a reuse event within the retention window keeps
    every row that event revoked. *)
Definition sweep_spares_reuse_rows (o : Oracle) (env : Env) (w : World)
  (tok : string) (opts : IToken.t) : Prop :=
  forall w1 w2 n,
    run o (refreshAuth env tok opts) w = (w1, inl ReuseDetected) ->
    run o cleanupExpiredTokens w1 = (w2, inr n) ->
    forall r, In r (tokens w1) ->
      revokedReason r = Some reuseReason ->
      opt_lt (revokedAt r) (addDays (clock o (cursor w1)) (-30)) = false ->
      In r (tokens w2).

(* ------------------------------------------------------------------ *)
(** ** Concrete worlds *)

Module Fixture.
Definition t0 : Z := 1700000000000.

Definition tag (n : nat) : string := String (ascii_of_nat (97 + n)) EmptyString.

Definition oracle : Oracle :=
  {| clock := fun n => t0 + Z.of_nat n;
     randomBytesHex := fun n => String.append "f00d" (tag n);
     jwt_sign := fun n p _ =>
       String.append (JWTPayload.type p) (String.append "." (tag n));
     jwt_verify := fun _ t =>
       if String.prefix "refresh." t
       then JwtVerified {| JWTPayload.sub := "user-1";
                           JWTPayload.type := "refresh";
                           JWTPayload.jti := None |}
       else if String.prefix "access." t
       then JwtVerified {| JWTPayload.sub := "user-1";
                           JWTPayload.type := "access";
                           JWTPayload.jti := None |}
       else JwtThrows "JsonWebTokenError";
     strToDate := fun n _ => t0 + Z.of_nat n + 3 * msPerDay;
     db_uuid := fun n => String.append "id-" (tag n);
     db_now := fun n => t0 + Z.of_nat n;
     userEmail := fun _ => "user@example.com"%string |}.

Definition env : Env :=
  {| expiryAccessToken := "3d"; expiryRefreshToken := "7d" |}.

Definition refreshPayload : JWTPayload.t :=
  {| JWTPayload.sub := "user-1"; JWTPayload.type := "refresh";
     JWTPayload.jti := None |}.

(** A live refresh row of [user-1] as [saveToken] writes it. *)
Definition row (i tok : string) (fam : option string) (uses : Z)
  (exp : Z) : Token :=
  {| id := i; userId := "user-1"; token := tok; type := tokenType.refresh;
     deviceId := Some "dev-1"%string; deviceName := Some "Old phone"%string;
     userAgent := Some "agent/1"%string; ipAddress := Some "10.0.0.1"%string;
     tokenFamily := fam; replacesTokenId := None;
     rememberMe := false; metadata := JObject [];
     isRevoked := false; revokedAt := None; revokedReason := None;
     useCount := uses; expiresAt := Some exp;
     createdAt := t0 - msPerDay; lastUsedAt := None |}.

(** An earlier link of a chain: rotated out, and past its expiry. *)
Definition staleLink (i tok : string) (fam : option string) : Token :=
  data_rotated (t0 - 8 * msPerDay) (row i tok fam 0 (t0 - msPerDay)).

Definition noContext : IToken.t :=
  {| IToken.userId := "user-1"; IToken.deviceId := None;
     IToken.deviceName := None; IToken.ipAddress := None;
     IToken.userAgent := None; IToken.rememberMe := None;
     IToken.metadata := None |}.

Definition newPhone : IToken.t :=
  {| IToken.userId := "user-1"; IToken.deviceId := Some "dev-2"%string;
     IToken.deviceName := Some "New phone"%string;
     IToken.ipAddress := Some "10.0.0.2"%string;
     IToken.userAgent := Some "agent/2"%string; IToken.rememberMe := None;
     IToken.metadata := None |}.

Definition fam : option string := Some "c0ffee"%string.

(** One fresh row. *)
Definition freshWorld : World :=
  {| tokens := [row "id-1" "refresh.x" fam 0 (t0 + 7 * msPerDay)];
     cursor := 0 |}.

(** One live row already used once, without a family. *)
Definition orphanWorld : World :=
  {| tokens := [row "id-1" "refresh.x" None 1 (t0 + 7 * msPerDay)];
     cursor := 0 |}.

(** A live row already used once, a stale link and a live successor of the
    same family, and a row of another family. *)
Definition familyWorld : World :=
  {| tokens := [staleLink "id-0" "refresh.v" fam;
                row "id-1" "refresh.x" fam 1 (t0 + 7 * msPerDay);
                row "id-2" "refresh.y" fam 0 (t0 + 7 * msPerDay);
                row "id-9" "refresh.z" (Some "beef"%string) 0 (t0 + 7 * msPerDay)];
     cursor := 0 |}.

(** One live row past its expiry. *)
Definition expiredWorld : World :=
  {| tokens := [row "id-1" "refresh.x" fam 0 (t0 - 1);
                row "id-2" "refresh.y" fam 0 (t0 + 7 * msPerDay)];
     cursor := 0 |}.

Definition defaultPage : PaginationOptions.t :=
  {| PaginationOptions.limit := None; PaginationOptions.page := None;
     PaginationOptions.maxLimit := None; PaginationOptions.sort := None |}.

Definition noFilters : SessionFilters.t :=
  {| SessionFilters.email := None; SessionFilters.type := None |}.

(** Both calls suspend at each store operation in turn. *)
Definition alternating : list bool :=
  [true; false; true; false; true; false; true; false].
End Fixture.

(* ------------------------------------------------------------------ *)
(** ** The rest of [utils/paginate.ts] *)

(** The query object of a request, as [parsePaginationParams] reads it. *)
Module RawQuery.
Record t := { page : option string; limit : option string }.
End RawQuery.

(** [n || d] on a number: [NaN] ([None]) and [0] are falsy. *)
Definition num_or (n : option Z) (d : Z) : Z :=
  match n with
  | Some v => if v =? 0 then d else v
  | None => d
  end.

(** [parseInt] is the language's; it answers an integer or [NaN]. *)
Definition parsePaginationParams (parseInt : option string -> option Z)
  (query : RawQuery.t) : PaginationOptions.t :=
  let page := num_or (parseInt (RawQuery.page query)) 1 in
  let limit := num_or (parseInt (RawQuery.limit query)) 10 in
  {| PaginationOptions.page := Some (Z.max 1 page);
     PaginationOptions.limit := Some (Z.max 1 (Z.min 100 limit));
     PaginationOptions.maxLimit := None;
     PaginationOptions.sort := None |}.

Definition getOffset (page limit : Z) : Z :=
  Z.max 0 ((Z.max 1 page - 1) * Z.max 1 limit).

(* ------------------------------------------------------------------ *)
(** ** [utils/response.ts] *)

Module responseInterface.
Record t := {
  success : option bool;
  status : Z;
  message : string;
  type : option string;
  data : option Json;
  token : option Json
}.
End responseInterface.

Module Envelope.
Record t := {
  success : bool;
  status : Z;
  message : string;
  response : list (string * Json)
}.
End Envelope.

(** JavaScript truthiness of a JSON value. *)
Definition json_truthy (j : Json) : bool :=
  match j with
  | JNull => false
  | JBool b => b
  | JNumber n => negb (n =? 0)
  | JString s => negb (String.eqb s "")
  | JArray _ | JObject _ => true
  end.

(** The inner [response] object: [...(type && { type })], [data],
    [...(token && { tokens: token })]. *)
Definition response_fields (r : responseInterface.t) : list (string * Json) :=
  (if truthy (responseInterface.type r)
   then [("type"%string, JString (or_else (responseInterface.type r) ""))]
   else [])
  ++ [("data"%string, or_default (responseInterface.data r) (JObject []))]
  ++ match responseInterface.token r with
     | Some t => if json_truthy t then [("tokens"%string, t)] else []
     | None => []
     end.

Definition in2xx (s : Z) : bool := (200 <=? s) && (s <? 300).

(** [utils/response.ts]: [success || (status >= 200 && status < 300)]. *)
Definition response (r : responseInterface.t) : Envelope.t :=
  {| Envelope.success :=
       or_default (responseInterface.success r) false
       || in2xx (responseInterface.status r);
     Envelope.status := responseInterface.status r;
     Envelope.message := responseInterface.message r;
     Envelope.response := response_fields r |}.


(* ------------------------------------------------------------------ *)
(** ** [setAuthCookies] *)

Record CookieOptions := {
  httpOnly : bool;
  secure : bool;
  sameSite : string;
  expires : option Z;
  path : option string
}.

(** One [res.cookie(name, value, options)]. *)
Record Cookie := { name : string; value : string; options : CookieOptions }.

(** [res] is the list of cookies set on the response so far; [DEBUG] is
    [variables.DEBUG]. *)
Definition setAuthCookies (DEBUG : bool) (res : list Cookie)
  (tk : TokenPair) : list Cookie :=
  res
  ++ [{| name := "accessToken";
         value := Issued.token (access tk);
         options := {| httpOnly := true;
                       secure := negb DEBUG;
                       sameSite := if DEBUG then "lax" else "none";
                       expires := Some (Issued.expiresAt (access tk));
                       path := None |} |}]
  ++ [{| name := "refreshToken";
         value := Issued.token (refresh tk);
         options := {| httpOnly := true;
                       secure := negb DEBUG;
                       sameSite := if DEBUG then "lax" else "none";
                       expires := Some (Issued.expiresAt (refresh tk));
                       path := Some "/api/v1/auth/refresh-tokens"%string |} |}].

(* ------------------------------------------------------------------ *)
(** ** [middlewares/auth.ts]: the callback given to passport *)

(** The fields of the authenticated user the callback reads. *)
Module AuthUser.
Record t := {
  id : string;
  role : option string;
  isDeleted : bool;
  isRestricted : bool
}.
End AuthUser.

Definition AuthenticationError : Exn :=
  ApiErr {| statusCode := 500; message := "Authentication error" |}.
Definition NotAuthorized : Exn :=
  ApiErr {| statusCode := 401; message := "You are not authorized" |}.
Definition UserNotFound : Exn :=
  ApiErr {| statusCode := 401; message := "User Not Found!" |}.
Definition UserRestricted : Exn :=
  ApiErr {| statusCode := 403;
            message := "User is restricted, Please contact support" |}.
Definition Forbidden : Exn :=
  ApiErr {| statusCode := 403; message := "Forbidden!" |}.

(** [roleRights.get(user.role) || []]; the table of [configs/roles] is not
    among the sources and is a parameter. *)
Definition getUserPermissions (roleRights : string -> option (list string))
  (user : AuthUser.t) : list string :=
  match AuthUser.role user with
  | Some r => or_default (roleRights r) []
  | None => []
  end.

Definition includes (l : list string) (x : string) : bool :=
  existsb (String.eqb x) l.

(** [verifyCallback(req, resolve, reject, requiredRights)(err, user, info)]:
    [inl e] is [reject(e)], [inr u] is [req.user = u] followed by
    [resolve()].  [err] is the error's message, [info] any value. *)
Definition verifyCallback (roleRights : string -> option (list string))
  (requiredRights : list string)
  (err : option string) (user : option AuthUser.t) (info : option Json)
  : Exn + AuthUser.t :=
  match err with
  | Some _ => inl AuthenticationError
  | None =>
    let infoTruthy := match info with Some j => json_truthy j | None => false end in
    match user with
    | None => inl NotAuthorized
    | Some u =>
      if infoTruthy then inl NotAuthorized
      else if AuthUser.isDeleted u then inl UserNotFound
      else if AuthUser.isRestricted u then inl UserRestricted
      else if (0 <? Z.of_nat (List.length requiredRights))
              && negb (existsb (includes (getUserPermissions roleRights u))
                               requiredRights)
      then inl Forbidden
      else inr u
    end
  end.

(* ------------------------------------------------------------------ *)
(** ** Histories of calls *)

(** One call of the service's store-facing interface. *)
Inductive Call :=
| CallGenerateLoginTokens (opts : IToken.t)
| CallRefreshAuth (refreshToken : string) (opts : IToken.t)
| CallRevokeRefreshToken (t : string) (reason : option string)
| CallRevokeAllForUser (u : string) (reason : option string)
| CallRevokeSession (u sessionId : string)
| CallListUserSessions (options : PaginationOptions.t)
                       (filters : SessionFilters.t)
| CallCleanupExpiredTokens.

(** The world a call leaves when it runs to completion, whether it returns
    or throws. *)
Definition after (o : Oracle) (env : Env) (c : Call) (w : World) : World :=
  match c with
  | CallGenerateLoginTokens opts => fst (run o (generateLoginTokens env opts) w)
  | CallRefreshAuth t opts => fst (run o (refreshAuth env t opts) w)
  | CallRevokeRefreshToken t reason => fst (run o (revokeRefreshToken t reason) w)
  | CallRevokeAllForUser u reason => fst (run o (revokeAllForUser u reason) w)
  | CallRevokeSession u s => fst (run o (revokeSession u s) w)
  | CallListUserSessions options filters =>
      fst (run o (listUserSessions o options filters) w)
  | CallCleanupExpiredTokens => fst (run o cleanupExpiredTokens w)
  end.

Definition afterAll (o : Oracle) (env : Env) (calls : list Call)
  (w : World) : World :=
  fold_left (fun w c => after o env c w) calls w.

Definition emptyWorld : World := {| tokens := []; cursor := 0 |}.

(** A record as the service alone leaves it: a refresh record with an
    expiry, never used, or used once and revoked. *)
Definition wellFormedRow (r : Token) : bool :=
  tokenType.eqb (type r) tokenType.refresh
  && match expiresAt r with Some _ => true | None => false end
  && ((useCount r =? 0) || ((useCount r =? 1) && isRevoked r)).

(** A live record has no trace of use or revocation. *)
Definition pristineIfLive (r : Token) : bool :=
  isRevoked r
  || ((useCount r =? 0)
      && match revokedAt r, revokedReason r, lastUsedAt r with
         | None, None, None => true
         | _, _, _ => false
         end).

(** The [where] of [revokeAllForUser]. *)
Definition live_refresh_of (u : string) (r : Token) : bool :=
  String.eqb (userId r) u && tokenType.eqb (type r) tokenType.refresh
  && negb (isRevoked r).

(** The [where] of the lookup in [revokeSession]. *)
Definition owned_session (u sessionId : string) (r : Token) : bool :=
  String.eqb (id r) sessionId && String.eqb (userId r) u
  && tokenType.eqb (type r) tokenType.refresh.

Definition allDevicesReason : string := "User logged out from all devices".

(** Page [p] (from 1) of [paginate] under fixed options. *)
Definition with_page (options : PaginationOptions.t) (p : Z)
  : PaginationOptions.t :=
  {| PaginationOptions.limit := PaginationOptions.limit options;
     PaginationOptions.page := Some p;
     PaginationOptions.maxLimit := PaginationOptions.maxLimit options;
     PaginationOptions.sort := PaginationOptions.sort options |}.

Definition page_data (o : Oracle) (options : PaginationOptions.t)
  (filters : Token -> bool) (w : World) (p : Z) : list Token :=
  match snd (run o (paginate (with_page options p) filters) w) with
  | inr res => data res
  | inl _ => []
  end.

(** The shape of the record a successful rotation appends. *)
Definition successorOf (p : JWTPayload.t) (doc r : Token) : Prop :=
  type r = tokenType.refresh /\ userId r = JWTPayload.sub p
  /\ useCount r = 0 /\ isRevoked r = false
  /\ revokedAt r = None /\ revokedReason r = None /\ lastUsedAt r = None
  /\ (exists e, expiresAt r = Some e)
  /\ tokenFamily r = tokenFamily doc
  /\ replacesTokenId r = Some (id doc).

Inductive RefreshOutcome (o : Oracle) (w : World) (tok : string)
  : World * (Exn + TokenPair) -> Prop :=
| OutInvalid name :
    jwt_verify o (cursor w) tok = JwtThrows name ->
    RefreshOutcome o w tok (tick w, inl InvalidSignature)
| OutWrongKind p :
    jwt_verify o (cursor w) tok = JwtVerified p ->
    JWTPayload.type p <> "refresh"%string ->
    RefreshOutcome o w tok (tick w, inl NotARefreshToken)
| OutNotFound p :
    verifies_as_refresh o w tok p ->
    find (live_refresh_with tok) (tokens w) = None ->
    RefreshOutcome o w tok (tick w, inl TokenNotFound)
| OutExpired p doc w' :
    verifies_as_refresh o w tok p -> matches_live w tok doc ->
    expiredAt (checkInstant o w) doc = true ->
    tokens w' = delete_where (has_id (id doc)) (tokens w) ->
    RefreshOutcome o w tok (w', inl TokenExpired)
| OutReuseFamily p doc w' d :
    verifies_as_refresh o w tok p -> matches_live w tok doc ->
    expiredAt (checkInstant o w) doc = false ->
    0 < useCount doc -> truthy (tokenFamily doc) = true ->
    tokens w' = update_where (in_family (tokenFamily doc))
                  (data_revoked d reuseReason) (tokens w) ->
    RefreshOutcome o w tok (w', inl ReuseDetected)
| OutReuseOrphan p doc w' :
    verifies_as_refresh o w tok p -> matches_live w tok doc ->
    expiredAt (checkInstant o w) doc = false ->
    0 < useCount doc -> truthy (tokenFamily doc) = false ->
    tokens w' = tokens w ->
    RefreshOutcome o w tok (w', inl ReuseDetected)
| OutRotated p doc w' d newRow pair :
    verifies_as_refresh o w tok p -> matches_live w tok doc ->
    expiredAt (checkInstant o w) doc = false ->
    useCount doc <= 0 ->
    tokens w' = update_where (has_id (id doc)) (data_rotated d) (tokens w)
                ++ [newRow] ->
    successorOf p doc newRow ->
    token newRow = Issued.token (refresh pair) ->
    (exists k, (cursor w <= k < cursor w')%nat /\ id newRow = db_uuid o k) ->
    RefreshOutcome o w tok (w', inr pair).

(** What a history of calls keeps true of every record. *)
Definition rowOK (r : Token) : bool := wellFormedRow r && pristineIfLive r.

Definition livePristine (w : World) : Prop :=
  forallb pristineIfLive (tokens w) = true.

(** Records well formed, ids unique and all assigned by the store before
    the cursor. *)
Definition storeInv (o : Oracle) (w : World) : Prop :=
  forallb rowOK (tokens w) = true
  /\ NoDup (map id (tokens w))
  /\ forall r, In r (tokens w) ->
       exists k, (k < cursor w)%nat /\ id r = db_uuid o k.

Fixpoint unary (n : nat) : string :=
  match n with
  | O => EmptyString
  | S k => String "i"%char (unary k)
  end.

(** The rows a [findMany] of [paginate] ranges over before [skip] and
    [take]: the matching rows, in the requested order. *)
Definition matching_rows (options : PaginationOptions.t)
  (filters : Token -> bool) (w : World) : list Token :=
  match PaginationOptions.sort options with
  | Some le => sort_by le (filter filters (tokens w))
  | None => filter filters (tokens w)
  end.

Definition pages_total (o : Oracle) (options : PaginationOptions.t)
  (filters : Token -> bool) (w : World) : Z :=
  match snd (run o (paginate options filters) w) with
  | inr res => totalPages (pagination res)
  | inl _ => 0
  end.

Module Scenario.
(** [parseInt] on the decimal strings of the examples. *)
Definition parseInt (s : option string) : option Z :=
  match s with
  | Some "0"%string => Some 0
  | Some "3"%string => Some 3
  | Some "250"%string => Some 250
  | Some "-5"%string => Some (-5)
  | _ => None
  end.

(** Two users' sessions: one live and one revoked for [user-1], one live
    for [user-2]. *)
Definition other (i tok : string) : Token :=
  {| id := i; userId := "user-2"; token := tok; type := tokenType.refresh;
     deviceId := None; deviceName := None; userAgent := None;
     ipAddress := None; tokenFamily := Some "beef"%string;
     replacesTokenId := None; rememberMe := true; metadata := JObject [];
     isRevoked := false; revokedAt := None; revokedReason := None;
     useCount := 0; expiresAt := Some (Fixture.t0 + 30 * msPerDay);
     createdAt := Fixture.t0 - msPerDay; lastUsedAt := None |}.

Definition twoUsers : World :=
  {| tokens := [Fixture.row "id-1" "refresh.x" Fixture.fam 0
                  (Fixture.t0 + 7 * msPerDay);
                data_revoked (Fixture.t0 - 5) "user_logout"
                  (Fixture.row "id-2" "refresh.y" Fixture.fam 0
                     (Fixture.t0 + 7 * msPerDay));
                other "id-3" "refresh.z"];
     cursor := 0 |}.

(** The fixture's oracle with ids that never repeat. *)
Definition uniqueIds : Oracle :=
  {| clock := clock Fixture.oracle;
     randomBytesHex := randomBytesHex Fixture.oracle;
     jwt_sign := jwt_sign Fixture.oracle;
     jwt_verify := jwt_verify Fixture.oracle;
     strToDate := strToDate Fixture.oracle;
     db_uuid := unary;
     db_now := db_now Fixture.oracle;
     userEmail := userEmail Fixture.oracle |}.

(** A login, a rotation of its token, a second presentation of that
    token, a logout everywhere and a sweep. *)
Definition history : list Call :=
  [CallGenerateLoginTokens Fixture.noContext;
   CallRefreshAuth "refresh.d" Fixture.newPhone;
   CallRefreshAuth "refresh.d" Fixture.newPhone;
   CallRevokeAllForUser "user-1" None;
   CallCleanupExpiredTokens].

Definition rememberedLogin : IToken.t :=
  {| IToken.userId := "user-1"; IToken.deviceId := Some "dev-1"%string;
     IToken.deviceName := Some "Laptop"%string;
     IToken.ipAddress := None; IToken.userAgent := None;
     IToken.rememberMe := Some true; IToken.metadata := None |}.
End Scenario.

(* ------------------------------------------------------------------ *)
(** ** The store primitives *)

Lemma find_existsb_id p l (x : Token) :
  find p l = Some x -> existsb (has_id (id x)) l = true.
Proof.
  intros H. apply find_some in H as [Hin _].
  apply existsb_exists. exists x. split; [exact Hin|].
  unfold has_id. apply String.eqb_refl.
Qed.

Lemma In_update_where p f l (r : Token) :
  In r (update_where p f l) <->
  exists r0, In r0 l /\ r = (if p r0 then f r0 else r0).
Proof.
  unfold update_where. rewrite in_map_iff.
  split; intros (r0 & H1 & H2); exists r0; intuition congruence.
Qed.

Lemma In_delete_where p l (r : Token) :
  In r (delete_where p l) <-> In r l /\ p r = false.
Proof.
  unfold delete_where. rewrite filter_In.
  destruct (p r); simpl; intuition congruence.
Qed.

(* ------------------------------------------------------------------ *)
(** ** The paths of [refreshAuth] *)

Section RefreshPaths.
Variables (o : Oracle) (env : Env).
Variables (w : World) (tok : string) (opts : IToken.t).
Variables (payload : JWTPayload.t) (doc : Token).
Hypothesis Hverify : verifies_as_refresh o w tok payload.
Hypothesis Hmatch : matches_live w tok doc.

Lemma refreshAuth_expired_path :
  expiredAt (checkInstant o w) doc = true ->
  run o (refreshAuth env tok opts) w =
  ({| tokens := delete_where (has_id (id doc)) (tokens w);
      cursor := S (S (cursor w)) |}, inl TokenExpired).
Proof.
  destruct Hverify as [Hv Hty]. unfold matches_live in Hmatch.
  unfold expiredAt, checkInstant, opt_lt. intros He.
  unfold refreshAuth, jwt.verifyToken. simpl.
  rewrite Hv. simpl. rewrite Hty. simpl. rewrite Hmatch. simpl.
  destruct (expiresAt doc) as [e|]; [|discriminate].
  simpl. rewrite He. simpl.
  rewrite (find_existsb_id _ _ _ Hmatch). reflexivity.
Qed.

Lemma refreshAuth_reuse_family_path :
  expiredAt (checkInstant o w) doc = false ->
  0 < useCount doc ->
  truthy (tokenFamily doc) = true ->
  run o (refreshAuth env tok opts) w =
  ({| tokens := update_where (in_family (tokenFamily doc))
                  (data_revoked (clock o (cursorAfterChecks w doc)) reuseReason)
                  (tokens w);
      cursor := S (cursorAfterChecks w doc) |}, inl ReuseDetected).
Proof.
  destruct Hverify as [Hv Hty]. unfold matches_live in Hmatch.
  unfold expiredAt, checkInstant, opt_lt, cursorAfterChecks.
  intros He Hu Hfam. apply Z.ltb_lt in Hu.
  unfold refreshAuth, jwt.verifyToken. simpl.
  rewrite Hv. simpl. rewrite Hty. simpl. rewrite Hmatch. simpl.
  destruct (expiresAt doc) as [e|]; simpl;
    [rewrite He; simpl|]; rewrite Hu, Hfam; reflexivity.
Qed.

Lemma refreshAuth_reuse_orphan_path :
  expiredAt (checkInstant o w) doc = false ->
  0 < useCount doc ->
  truthy (tokenFamily doc) = false ->
  run o (refreshAuth env tok opts) w =
  ({| tokens := tokens w; cursor := cursorAfterChecks w doc |},
   inl ReuseDetected).
Proof.
  destruct Hverify as [Hv Hty]. unfold matches_live in Hmatch.
  unfold expiredAt, checkInstant, opt_lt, cursorAfterChecks.
  intros He Hu Hfam. apply Z.ltb_lt in Hu.
  unfold refreshAuth, jwt.verifyToken. simpl.
  rewrite Hv. simpl. rewrite Hty. simpl. rewrite Hmatch. simpl.
  destruct (expiresAt doc) as [e|]; simpl;
    [rewrite He; simpl|]; rewrite Hu, Hfam; reflexivity.
Qed.

Lemma refreshAuth_fresh_path :
  expiredAt (checkInstant o w) doc = false ->
  useCount doc <= 0 ->
  let c := cursorAfterChecks w doc in
  let newAccessToken :=
    jwt_sign o (2 + c)
      {| JWTPayload.sub := JWTPayload.sub payload;
         JWTPayload.type := "access";
         JWTPayload.jti := Some (randomBytesHex o (1 + c)) |}
      (expiryAccessToken env) in
  let newRefreshToken :=
    jwt_sign o (4 + c)
      {| JWTPayload.sub := JWTPayload.sub payload;
         JWTPayload.type := "refresh";
         JWTPayload.jti := Some (randomBytesHex o (3 + c)) |}
      (expiryRefreshToken env) in
  let newExpiresAt :=
    addDays (clock o (5 + c)) (if rememberMe doc then 30 else 7) in
  let newRow :=
    {| id := db_uuid o (6 + c);
       userId := JWTPayload.sub payload;
       token := newRefreshToken;
       type := tokenType.refresh;
       deviceId := nullish (IToken.deviceId opts) (deviceId doc);
       deviceName := deviceName doc;
       userAgent := nullish (IToken.userAgent opts) (userAgent doc);
       ipAddress := nullish (IToken.ipAddress opts) (ipAddress doc);
       tokenFamily := tokenFamily doc;
       replacesTokenId := Some (id doc);
       rememberMe := rememberMe doc;
       metadata := metadata doc;
       isRevoked := false;
       revokedAt := None;
       revokedReason := None;
       useCount := 0;
       expiresAt := Some newExpiresAt;
       createdAt := db_now o (6 + c);
       lastUsedAt := None |} in
  run o (refreshAuth env tok opts) w =
  ({| tokens := update_where (has_id (id doc)) (data_rotated (clock o c))
                  (tokens w) ++ [newRow];
      cursor := (8 + c)%nat |},
   inr {| access := {| Issued.token := newAccessToken;
                       Issued.expiresAt :=
                         strToDate o (7 + c) (expiryAccessToken env) |};
          refresh := {| Issued.token := newRefreshToken;
                        Issued.expiresAt := newExpiresAt |} |}).
Proof.
  destruct Hverify as [Hv Hty]. unfold matches_live in Hmatch.
  unfold expiredAt, checkInstant, opt_lt, cursorAfterChecks.
  intros He Hu. assert (Hu' : (0 <? useCount doc) = false) by (apply Z.ltb_ge; lia).
  pose proof (find_existsb_id _ _ _ Hmatch) as Hex.
  unfold refreshAuth, jwt.verifyToken. cbn.
  rewrite Hv. cbn. rewrite Hty. cbn. rewrite Hmatch. cbn.
  destruct (expiresAt doc) as [e|]; cbn;
    [rewrite He; cbn|]; rewrite Hu'; cbn; rewrite Hex; reflexivity.
Qed.

End RefreshPaths.

Lemma cursorAfterChecks_bounds w doc :
  (cursor w < cursorAfterChecks w doc)%nat.
Proof. unfold cursorAfterChecks. destruct (expiresAt doc); lia. Qed.

Lemma readDuring_intro o w w' n :
  (cursor w <= n < cursor w')%nat -> readDuring o w w' (clock o n).
Proof. intros H. exists n. split; [exact H|reflexivity]. Qed.

Lemma in_family_truthy (f : option string) (r : Token) :
  truthy f = true -> (in_family f r = true <-> tokenFamily r = f).
Proof.
  destruct f as [s|]; simpl; [intros _|discriminate].
  unfold opt_str_eqb. destruct (tokenFamily r) as [s'|].
  - rewrite String.eqb_eq. split; congruence.
  - split; discriminate.
Qed.

Lemma truthy_None_or_empty (f : option string) :
  truthy f = false <-> f = None \/ f = Some ""%string.
Proof.
  destruct f as [s|]; simpl.
  - rewrite negb_false_iff, String.eqb_eq.
    split; [intros ->; now right | intros [H|H]; congruence].
  - split; [now left | reflexivity].
Qed.

Lemma has_id_true i (r : Token) : has_id i r = true <-> id r = i.
Proof. unfold has_id. apply String.eqb_eq. Qed.

Lemma has_id_false i (r : Token) : has_id i r = false <-> id r <> i.
Proof. unfold has_id. apply String.eqb_neq. Qed.

Lemma find_none_iff (p : Token -> bool) (l : list Token) :
  find p l = None <-> forall r, In r l -> p r = false.
Proof.
  split.
  - intros H r Hin. exact (find_none p l H r Hin).
  - induction l as [|x l IH]; intros H; simpl; [reflexivity|].
    rewrite (H x (or_introl eq_refl)).
    apply IH. intros r Hin. apply H. now right.
Qed.

Lemma refreshAuth_unmatched (o : Oracle) (env : Env) (w : World)
  (tok : string) (opts : IToken.t) :
  find (live_refresh_with tok) (tokens w) = None ->
  exists w' e,
    run o (refreshAuth env tok opts) w = (w', inl e)
    /\ (e = InvalidSignature \/ e = NotARefreshToken \/ e = TokenNotFound)
    /\ tokens w' = tokens w.
Proof.
  intros Hnone. unfold refreshAuth, jwt.verifyToken. cbn.
  destruct (jwt_verify o (cursor w) tok) as [p|name]; cbn.
  - destruct (String.eqb (JWTPayload.type p) "refresh"); cbn.
    + rewrite Hnone. cbn. eexists; eexists. split; [reflexivity|].
      split; [now right; right|reflexivity].
    + eexists; eexists. split; [reflexivity|].
      split; [now right; left|reflexivity].
  - destruct (String.eqb name "TokenExpiredError"); cbn;
      [|destruct (String.eqb name "JsonWebTokenError"); cbn;
        [|destruct (String.eqb name "NotBeforeError"); cbn]];
      (eexists; eexists; split; [reflexivity|];
       split; [now left|reflexivity]).
Qed.

(* ------------------------------------------------------------------ *)
(** ** Reuse detection *)

(** C1, as amended.  When the presented token verifies, matches a live
    record that is not expired and has [useCount > 0], and that record's
    [tokenFamily] is a non-empty string, [refreshAuth] fails with
    [ReuseDetected], returns no pair, and leaves the store with every record
    of that family revoked: [isRevoked], a [revokedAt] read from the clock
    during the call, and the reuse reason; records of other families are
    untouched. *)
Theorem reuse_revokes_family_when_present
  (o : Oracle) (env : Env) (w : World) (tok : string) (opts : IToken.t)
  (payload : JWTPayload.t) (doc : Token) :
  verifies_as_refresh o w tok payload ->
  matches_live w tok doc ->
  expiredAt (checkInstant o w) doc = false ->
  0 < useCount doc ->
  truthy (tokenFamily doc) = true ->
  exists w' d,
    run o (refreshAuth env tok opts) w = (w', inl ReuseDetected)
    /\ readDuring o w w' d
    /\ tokens w' = update_where (fun r => in_family (tokenFamily doc) r)
                     (data_revoked d reuseReason) (tokens w)
    /\ (forall r, In r (tokens w) -> sameFamily r doc ->
          In (data_revoked d reuseReason r) (tokens w'))
    /\ (forall r, In r (tokens w') -> sameFamily r doc ->
          isRevoked r = true /\ revokedAt r = Some d
          /\ revokedReason r = Some reuseReason)
    /\ (forall r, In r (tokens w) -> ~ sameFamily r doc -> In r (tokens w')).
Proof.
  intros Hv Hm He Hu Hfam.
  pose proof (refreshAuth_reuse_family_path o env w tok opts payload doc
                Hv Hm He Hu Hfam) as Hrun.
  eexists; exists (clock o (cursorAfterChecks w doc)).
  split; [exact Hrun|]. simpl.
  split.
  { exists (cursorAfterChecks w doc). simpl.
    pose proof (cursorAfterChecks_bounds w doc). split; [lia|reflexivity]. }
  split; [reflexivity|].
  split; [|split].
  - intros r Hin Hs. apply In_update_where. exists r. split; [exact Hin|].
    apply (in_family_truthy _ r Hfam) in Hs. now rewrite Hs.
  - intros r Hin Hs. apply In_update_where in Hin as (r0 & Hin & ->).
    destruct (in_family (tokenFamily doc) r0) eqn:Hf; [now simpl|].
    apply (in_family_truthy _ r0 Hfam) in Hs. congruence.
  - intros r Hin Hs. apply In_update_where. exists r. split; [exact Hin|].
    destruct (in_family (tokenFamily doc) r) eqn:Hf; [|reflexivity].
    apply (in_family_truthy _ r Hfam) in Hf. contradiction.
Qed.

Lemma reuse_revokes_family_when_present_witness :
  exists w' d,
    run Fixture.oracle (refreshAuth Fixture.env "refresh.x" Fixture.noContext)
        Fixture.familyWorld = (w', inl ReuseDetected)
    /\ map (fun r => (id r, isRevoked r, revokedAt r)) (tokens w')
       = [("id-0"%string, true, Some d); ("id-1"%string, true, Some d);
          ("id-2"%string, true, Some d); ("id-9"%string, false, None)].
Proof.
  destruct (reuse_revokes_family_when_present
              Fixture.oracle Fixture.env Fixture.familyWorld "refresh.x"
              Fixture.noContext Fixture.refreshPayload
              (Fixture.row "id-1" "refresh.x" Fixture.fam 1
                 (Fixture.t0 + 7 * msPerDay)))
    as (w' & d & Hrun & _ & Htok & _).
  - split; reflexivity.
  - reflexivity.
  - reflexivity.
  - reflexivity.
  - reflexivity.
  - exists w', d. split; [exact Hrun|]. rewrite Htok. reflexivity.
Defined.

(** C1 as worded fails: a live record used once and without a family is
    presented; the call fails with [ReuseDetected] and the record, the only
    one of its family, is left unrevoked. *)
Lemma reuse_revokes_whole_family_counterexample :
  ~ reuse_revokes_whole_family Fixture.oracle Fixture.env Fixture.orphanWorld
      "refresh.x" Fixture.noContext.
Proof.
  intros H.
  destruct (H Fixture.refreshPayload
              (Fixture.row "id-1" "refresh.x" None 1 (Fixture.t0 + 7 * msPerDay)))
    as (w' & d & Hrun & Hall).
  - split; reflexivity.
  - reflexivity.
  - reflexivity.
  - reflexivity.
  - vm_compute in Hrun. injection Hrun as Hw. subst w'.
    destruct (Hall _ (or_introl eq_refl) eq_refl) as [Hrev _].
    discriminate Hrev.
Qed.

(** C10.  There are inputs on which reuse is detected and nothing is
    revoked: whenever the matched live, unexpired record has [useCount > 0]
    and a [null] family, [refreshAuth] leaves every record as it was and
    still fails with [ReuseDetected], whose message says that all sessions
    were revoked. *)
Theorem reuse_without_family_revokes_nothing
  (o : Oracle) (env : Env) (w : World) (tok : string) (opts : IToken.t)
  (payload : JWTPayload.t) (doc : Token) :
  verifies_as_refresh o w tok payload ->
  matches_live w tok doc ->
  expiredAt (checkInstant o w) doc = false ->
  0 < useCount doc ->
  tokenFamily doc = None ->
  exists w',
    run o (refreshAuth env tok opts) w = (w', inl ReuseDetected)
    /\ tokens w' = tokens w
    /\ In doc (tokens w') /\ isRevoked doc = false
    /\ ReuseDetected =
       ApiErr {| statusCode := 403;
                 message := "Token reuse detected - all sessions revoked for security" |}.
Proof.
  intros Hv Hm He Hu Hnull.
  assert (Hfam : truthy (tokenFamily doc) = false) by now rewrite Hnull.
  eexists. split.
  - exact (refreshAuth_reuse_orphan_path o env w tok opts payload doc
             Hv Hm He Hu Hfam).
  - simpl. split; [reflexivity|].
    apply find_some in Hm as [Hin Hlive]. split; [exact Hin|].
    split; [|reflexivity].
    unfold live_refresh_with in Hlive.
    apply andb_prop in Hlive as [_ Hlive]. now apply negb_true_iff.
Qed.

Lemma reuse_without_family_revokes_nothing_witness :
  exists w',
    run Fixture.oracle (refreshAuth Fixture.env "refresh.x" Fixture.noContext)
        Fixture.orphanWorld = (w', inl ReuseDetected)
    /\ tokens w' = tokens Fixture.orphanWorld.
Proof.
  destruct (reuse_without_family_revokes_nothing
              Fixture.oracle Fixture.env Fixture.orphanWorld "refresh.x"
              Fixture.noContext Fixture.refreshPayload
              (Fixture.row "id-1" "refresh.x" None 1 (Fixture.t0 + 7 * msPerDay)))
    as (w' & Hrun & Htok & _).
  - split; reflexivity.
  - reflexivity.
  - reflexivity.
  - reflexivity.
  - reflexivity.
  - exists w'. split; assumption.
Defined.

(* ------------------------------------------------------------------ *)
(** ** Expiry *)

(** C5.  When the presented token verifies and matches a live record whose
    [expiresAt] is before the instant the expiry check reads, [refreshAuth]
    deletes the row with that record's id, leaves the other rows in place,
    and fails with [TokenExpired]: no pair is returned. *)
Theorem rotate_expired_deletes_and_fails
  (o : Oracle) (env : Env) (w : World) (tok : string) (opts : IToken.t)
  (payload : JWTPayload.t) (doc : Token) :
  verifies_as_refresh o w tok payload ->
  matches_live w tok doc ->
  expiredAt (checkInstant o w) doc = true ->
  exists w',
    run o (refreshAuth env tok opts) w = (w', inl TokenExpired)
    /\ tokens w' = delete_where (has_id (id doc)) (tokens w)
    /\ ~ In doc (tokens w')
    /\ (forall r, In r (tokens w') <-> In r (tokens w) /\ id r <> id doc).
Proof.
  intros Hv Hm He. eexists. split.
  - exact (refreshAuth_expired_path o env w tok opts payload doc Hv Hm He).
  - simpl. split; [reflexivity|]. split.
    + rewrite In_delete_where, has_id_false. intros [_ Hne]. now apply Hne.
    + intros r. rewrite In_delete_where, has_id_false. reflexivity.
Qed.

Lemma rotate_expired_deletes_and_fails_witness :
  exists w',
    run Fixture.oracle (refreshAuth Fixture.env "refresh.x" Fixture.noContext)
        Fixture.expiredWorld = (w', inl TokenExpired)
    /\ map id (tokens w') = ["id-2"%string].
Proof.
  destruct (rotate_expired_deletes_and_fails
              Fixture.oracle Fixture.env Fixture.expiredWorld "refresh.x"
              Fixture.noContext Fixture.refreshPayload
              (Fixture.row "id-1" "refresh.x" Fixture.fam 0 (Fixture.t0 - 1)))
    as (w' & Hrun & Htok & _).
  - split; reflexivity.
  - reflexivity.
  - reflexivity.
  - exists w'. split; [exact Hrun|]. rewrite Htok. reflexivity.
Defined.

(* ------------------------------------------------------------------ *)
(** ** Rotation *)

(** C3, as amended.  When the presented token verifies and matches a live
    record that is not expired and has [useCount = 0], [refreshAuth], run
    with no other call in between, returns a pair.  In the store it leaves,
    the presented record has [useCount = 1], [isRevoked], the reason
    ["Token rotated"] and a [lastUsedAt] read from the clock during the
    call, and the only other change is one appended refresh record with
    the same [tokenFamily], [replacesTokenId] the consumed record's id, the
    same [rememberMe], [useCount = 0], and the returned refresh token as
    its value.  The pair carries the new access token with the expiry
    [strToDate] computes and the new refresh token with the stored
    [expiresAt]: the clock plus 30 days of 86400000 ms under [rememberMe]
    and plus 7 days otherwise.  A presentation of the same token that
    follows fails and changes nothing, provided no other live record
    carries the token value and the new refresh token differs from it. *)
Theorem rotate_fresh_succeeds
  (o : Oracle) (env : Env) (w : World) (tok : string) (opts : IToken.t)
  (payload : JWTPayload.t) (doc : Token) :
  verifies_as_refresh o w tok payload ->
  matches_live w tok doc ->
  expiredAt (checkInstant o w) doc = false ->
  useCount doc = 0 ->
  exists w' pair d today newRow,
    run o (refreshAuth env tok opts) w = (w', inr pair)
    /\ readDuring o w w' d /\ readDuring o w w' today
    /\ tokens w' = update_where (has_id (id doc)) (data_rotated d) (tokens w)
                   ++ [newRow]
    /\ In (data_rotated d doc) (tokens w')
    /\ useCount (data_rotated d doc) = 1
    /\ isRevoked (data_rotated d doc) = true
    /\ revokedReason (data_rotated d doc) = Some "Token rotated"%string
    /\ lastUsedAt (data_rotated d doc) = Some d
    /\ (forall r, In r (tokens w') -> id r = id doc -> r <> newRow ->
          isRevoked r = true)
    /\ type newRow = tokenType.refresh
    /\ tokenFamily newRow = tokenFamily doc
    /\ replacesTokenId newRow = Some (id doc)
    /\ rememberMe newRow = rememberMe doc
    /\ useCount newRow = 0 /\ isRevoked newRow = false
    /\ token newRow = Issued.token (refresh pair)
    /\ expiresAt newRow = Some (Issued.expiresAt (refresh pair))
    /\ Issued.expiresAt (refresh pair)
       = today + (if rememberMe doc then 30 else 7) * 86400000
    /\ (exists n, Issued.expiresAt (access pair)
                  = strToDate o n (expiryAccessToken env))
    /\ (exists n jti, Issued.token (access pair)
          = jwt_sign o n {| JWTPayload.sub := JWTPayload.sub payload;
                            JWTPayload.type := "access";
                            JWTPayload.jti := Some jti |}
                     (expiryAccessToken env))
    /\ (exists n jti, Issued.token (refresh pair)
          = jwt_sign o n {| JWTPayload.sub := JWTPayload.sub payload;
                            JWTPayload.type := "refresh";
                            JWTPayload.jti := Some jti |}
                     (expiryRefreshToken env))
    /\ (forall opts2,
          forallb (fun r => implb (live_refresh_with tok r)
                                  (has_id (id doc) r)) (tokens w) = true ->
          String.eqb (Issued.token (refresh pair)) tok = false ->
          exists w2 e,
            run o (refreshAuth env tok opts2) w' = (w2, inl e)
            /\ (e = InvalidSignature \/ e = NotARefreshToken
                \/ e = TokenNotFound)
            /\ tokens w2 = tokens w').
Proof.
  intros Hv Hm He Hu.
  assert (Hu' : useCount doc <= 0) by lia.
  pose proof (refreshAuth_fresh_path o env w tok opts payload doc
                Hv Hm He Hu') as Hrun. cbv zeta in Hrun.
  pose proof (cursorAfterChecks_bounds w doc) as Hc.
  eexists; eexists; exists (clock o (cursorAfterChecks w doc));
    exists (clock o (5 + cursorAfterChecks w doc)); eexists.
  split; [exact Hrun|]. cbn [tokens cursor access refresh Issued.token
                             Issued.expiresAt].
  split; [apply readDuring_intro; cbn [cursor]; lia|].
  split; [apply readDuring_intro; cbn [cursor]; lia|].
  split; [reflexivity|].
  split.
  { apply in_or_app. left. apply In_update_where. exists doc.
    apply find_some in Hm as [Hin _]. split; [exact Hin|].
    now rewrite (proj2 (has_id_true (id doc) doc) eq_refl). }
  split; [simpl; lia|].
  split; [reflexivity|]. split; [reflexivity|]. split; [reflexivity|].
  split.
  { intros r Hin Hid Hnew. apply in_app_or in Hin as [Hin|[Hin|[]]].
    - apply In_update_where in Hin as (r0 & _ & ->).
      destruct (has_id (id doc) r0) eqn:Hh; [reflexivity|].
      apply has_id_false in Hh. contradiction.
    - congruence. }
  repeat (split; [reflexivity|]).
  split; [eexists; reflexivity|].
  split; [eexists; eexists; reflexivity|].
  split; [eexists; eexists; reflexivity|].
  intros opts2 Huniq Hnew.
  apply refreshAuth_unmatched. cbn [tokens].
  apply find_none_iff. intros r Hin.
  apply in_app_or in Hin as [Hin|[Hin|[]]].
  - apply In_update_where in Hin as (r0 & Hin0 & ->).
    destruct (has_id (id doc) r0) eqn:Hid.
    + unfold live_refresh_with. cbn [isRevoked data_rotated].
      now rewrite andb_false_r.
    + rewrite forallb_forall in Huniq. specialize (Huniq r0 Hin0).
      rewrite Hid in Huniq.
      destruct (live_refresh_with tok r0); [discriminate|reflexivity].
  - subst r. unfold live_refresh_with. cbn [token]. now rewrite Hnew.
Qed.

Lemma rotate_fresh_succeeds_witness :
  exists w' pair,
    run Fixture.oracle (refreshAuth Fixture.env "refresh.x" Fixture.noContext)
        Fixture.freshWorld = (w', inr pair)
    /\ map (fun r => (id r, useCount r, isRevoked r, tokenFamily r,
                      replacesTokenId r)) (tokens w')
       = [("id-1"%string, 1, true, Fixture.fam, None);
          ("id-i"%string, 0, false, Fixture.fam, Some "id-1"%string)].
Proof.
  destruct (rotate_fresh_succeeds
              Fixture.oracle Fixture.env Fixture.freshWorld "refresh.x"
              Fixture.noContext Fixture.refreshPayload
              (Fixture.row "id-1" "refresh.x" Fixture.fam 0
                 (Fixture.t0 + 7 * msPerDay)))
    as (w' & pair & d & today & newRow & Hrun & _).
  - split; reflexivity.
  - reflexivity.
  - reflexivity.
  - reflexivity.
  - exists w', pair. split; [exact Hrun|].
    vm_compute in Hrun. injection Hrun as Hw _. subst w'. reflexivity.
Defined.

(** The reason the rotation update writes is ["Token rotated"]; no record
    is ever stamped ["rotated"]. *)
Lemma rotation_reason_is_not_rotated :
  ~ rotation_marks_rotated Fixture.oracle Fixture.env Fixture.freshWorld
      "refresh.x" Fixture.noContext.
Proof.
  intros H.
  destruct (H Fixture.refreshPayload
              (Fixture.row "id-1" "refresh.x" Fixture.fam 0
                 (Fixture.t0 + 7 * msPerDay))
              (conj eq_refl eq_refl) eq_refl eq_refl eq_refl)
    as (w' & pair & r & Hrun & Hin & _ & _ & _ & Hreason).
  vm_compute in Hrun. injection Hrun as Hw _. subst w'.
  destruct Hin as [<-|[<-|[]]]; discriminate Hreason.
Qed.

(** Two calls that present the same fresh token and suspend at each store
    operation in turn both return a pair. *)
Lemma rotation_can_succeed_twice :
  ~ rotation_succeeds_once Fixture.oracle Fixture.env Fixture.freshWorld
      "refresh.x" Fixture.noContext Fixture.newPhone.
Proof.
  intros H.
  pose proof (H Fixture.refreshPayload
                (Fixture.row "id-1" "refresh.x" Fixture.fam 0
                   (Fixture.t0 + 7 * msPerDay))
                (conj eq_refl eq_refl) eq_refl eq_refl eq_refl
                Fixture.alternating _ _ _ eq_refl) as Hx.
  vm_compute in Hx. discriminate Hx.
Qed.

(** C3 as worded fails on one fresh record: the consumed record is stamped
    ["Token rotated"], not ["rotated"], and two interleaved presentations
    of the token both succeed. *)
Lemma rotation_as_worded_counterexample :
  ~ rotation_as_worded Fixture.oracle Fixture.env Fixture.freshWorld
      "refresh.x" Fixture.noContext Fixture.newPhone.
Proof.
  intros [Hmarks Honce].
  exact (rotation_can_succeed_twice Honce).
Qed.

(* ------------------------------------------------------------------ *)
(** ** Issuance *)

Lemma generateLoginTokens_run (o : Oracle) (env : Env) (w : World)
  (opts : IToken.t) :
  let c := cursor w in
  let accessToken :=
    jwt_sign o (1 + c)
      {| JWTPayload.sub := IToken.userId opts;
         JWTPayload.type := "access";
         JWTPayload.jti := Some (randomBytesHex o c) |}
      (expiryAccessToken env) in
  let refreshToken :=
    jwt_sign o (3 + c)
      {| JWTPayload.sub := IToken.userId opts;
         JWTPayload.type := "refresh";
         JWTPayload.jti := Some (randomBytesHex o (2 + c)) |}
      (expiryRefreshToken env) in
  let expiresAt_ :=
    addDays (clock o (5 + c))
            (if truthy_bool (IToken.rememberMe opts) then 30 else 7) in
  let newRow :=
    {| id := db_uuid o (6 + c);
       userId := IToken.userId opts;
       token := refreshToken;
       type := tokenType.refresh;
       deviceId := IToken.deviceId opts;
       deviceName := IToken.deviceName opts;
       userAgent := IToken.userAgent opts;
       ipAddress := IToken.ipAddress opts;
       tokenFamily := Some (randomBytesHex o (4 + c));
       replacesTokenId := None;
       rememberMe := truthy_bool (IToken.rememberMe opts);
       metadata := or_default (IToken.metadata opts) (JObject []);
       isRevoked := false;
       revokedAt := None;
       revokedReason := None;
       useCount := 0;
       expiresAt := Some expiresAt_;
       createdAt := db_now o (6 + c);
       lastUsedAt := None |} in
  run o (generateLoginTokens env opts) w =
  ({| tokens := tokens w ++ [newRow]; cursor := (8 + c)%nat |},
   inr {| access := {| Issued.token := accessToken;
                       Issued.expiresAt :=
                         strToDate o (7 + c) (expiryAccessToken env) |};
          refresh := {| Issued.token := refreshToken;
                        Issued.expiresAt := expiresAt_ |} |}).
Proof. reflexivity. Qed.

(** C4.  For every principal and session context, [generateLoginTokens]
    appends exactly one record to the store: a refresh record of that
    principal with [useCount = 0], no [replacesTokenId], a [tokenFamily]
    drawn from the random source during the call, and an [expiresAt] of the
    clock plus 30 days of 86400000 ms when [rememberMe] is true and plus 7
    such days otherwise, whatever expiry the configuration gives the signed
    tokens.  It returns
    the access token with the expiry [strToDate] computes and the refresh
    token, the stored value, with the stored [expiresAt]. *)
Theorem issue_session_persists_one_record
  (o : Oracle) (env : Env) (w : World) (opts : IToken.t) :
  exists w' pair newRow today,
    run o (generateLoginTokens env opts) w = (w', inr pair)
    /\ tokens w' = tokens w ++ [newRow]
    /\ readDuring o w w' today
    /\ type newRow = tokenType.refresh
    /\ userId newRow = IToken.userId opts
    /\ useCount newRow = 0
    /\ replacesTokenId newRow = None
    /\ isRevoked newRow = false
    /\ (exists n, (cursor w <= n < cursor w')%nat
                  /\ tokenFamily newRow = Some (randomBytesHex o n))
    /\ expiresAt newRow
       = Some (today + (match IToken.rememberMe opts with
                        | Some true => 30
                        | _ => 7
                        end) * 86400000)
    /\ (forall env2, exists w2 pair2 newRow2,
          run o (generateLoginTokens env2 opts) w = (w2, inr pair2)
          /\ tokens w2 = tokens w ++ [newRow2]
          /\ expiresAt newRow2 = expiresAt newRow)
    /\ token newRow = Issued.token (refresh pair)
    /\ Some (Issued.expiresAt (refresh pair)) = expiresAt newRow
    /\ (exists n jti, Issued.token (access pair)
          = jwt_sign o n {| JWTPayload.sub := IToken.userId opts;
                            JWTPayload.type := "access";
                            JWTPayload.jti := Some jti |}
                     (expiryAccessToken env))
    /\ (exists n jti, Issued.token (refresh pair)
          = jwt_sign o n {| JWTPayload.sub := IToken.userId opts;
                            JWTPayload.type := "refresh";
                            JWTPayload.jti := Some jti |}
                     (expiryRefreshToken env))
    /\ (exists n, Issued.expiresAt (access pair)
                  = strToDate o n (expiryAccessToken env)).
Proof.
  pose proof (generateLoginTokens_run o env w opts) as Hrun.
  cbv zeta in Hrun.
  eexists; eexists; eexists; exists (clock o (5 + cursor w)).
  split; [exact Hrun|].
  cbn [tokens cursor access refresh Issued.token Issued.expiresAt].
  split; [reflexivity|].
  split; [apply readDuring_intro; cbn [cursor]; lia|].
  split; [reflexivity|]. split; [reflexivity|]. split; [reflexivity|].
  split; [reflexivity|]. split; [reflexivity|].
  split; [exists (4 + cursor w)%nat; split; [lia|reflexivity]|].
  split.
  { cbn [expiresAt]. unfold truthy_bool, or_default.
    destruct (IToken.rememberMe opts) as [[|]|]; reflexivity. }
  split.
  { intros env2. eexists; eexists; eexists.
    split; [exact (generateLoginTokens_run o env2 w opts)|].
    split; reflexivity. }
  split; [reflexivity|]. split; [reflexivity|].
  split; [eexists; eexists; reflexivity|].
  split; [eexists; eexists; reflexivity|].
  eexists; reflexivity.
Qed.

Lemma issue_session_persists_one_record_witness :
  (exists w' pair newRow,
     run Fixture.oracle
         (generateLoginTokens Fixture.env Scenario.rememberedLogin)
         emptyWorld = (w', inr pair)
     /\ tokens w' = [newRow]
     /\ expiresAt newRow = Some (1700000000005 + 2592000000)
     /\ Issued.expiresAt (refresh pair) = 1702592000005
     /\ useCount newRow = 0 /\ replacesTokenId newRow = None
     /\ tokenFamily newRow = Some "f00de"%string)
  /\ (exists w' pair newRow,
        run Fixture.oracle
            (generateLoginTokens Fixture.env Fixture.noContext)
            emptyWorld = (w', inr pair)
        /\ tokens w' = [newRow]
        /\ expiresAt newRow = Some (1700000000005 + 604800000)
        /\ Issued.expiresAt (refresh pair) = 1700604800005).
Proof.
  split.
  - destruct (issue_session_persists_one_record Fixture.oracle Fixture.env
                emptyWorld Scenario.rememberedLogin)
      as (w' & pair & newRow & today & Hrun & Htok & _).
    exists w', pair, newRow. split; [exact Hrun|].
    vm_compute in Hrun. injection Hrun as Hw Hp. subst w' pair.
    cbn in Htok. injection Htok as <-. repeat split.
  - destruct (issue_session_persists_one_record Fixture.oracle Fixture.env
                emptyWorld Fixture.noContext)
      as (w' & pair & newRow & today & Hrun & Htok & _).
    exists w', pair, newRow. split; [exact Hrun|].
    vm_compute in Hrun. injection Hrun as Hw Hp. subst w' pair.
    cbn in Htok. injection Htok as <-. repeat split.
Defined.

(* ------------------------------------------------------------------ *)
(** ** The cleanup sweep *)

Lemma cleanupExpiredTokens_run (o : Oracle) (w : World) :
  let now := clock o (S (cursor w)) in
  let thirtyDaysAgo := addDays (clock o (cursor w)) (-30) in
  run o cleanupExpiredTokens w =
  ({| tokens := delete_where (sweepable now thirtyDaysAgo) (tokens w);
      cursor := S (S (cursor w)) |},
   inr (count_where (sweepable now thirtyDaysAgo) (tokens w))).
Proof. reflexivity. Qed.

Lemma filter_partition_length (p : Token -> bool) (l : list Token) :
  (List.length (filter p l) + List.length (filter (fun r => negb (p r)) l)
   = List.length l)%nat.
Proof.
  induction l as [|x l IH]; simpl; [reflexivity|].
  destruct (p x); simpl; lia.
Qed.

Lemma sweepable_spec now ago r :
  sweepable now ago r = true <->
  (exists e, expiresAt r = Some e /\ e < now)
  \/ (isRevoked r = true /\ exists d, revokedAt r = Some d /\ d < ago).
Proof.
  unfold sweepable, opt_lt. rewrite orb_true_iff, andb_true_iff.
  split; intros [H|H].
  - left. destruct (expiresAt r) as [e|]; [|discriminate].
    exists e. split; [reflexivity|]. now apply Z.ltb_lt.
  - right. destruct H as [Hr H]. split; [exact Hr|].
    destruct (revokedAt r) as [d|]; [|discriminate].
    exists d. split; [reflexivity|]. now apply Z.ltb_lt.
  - left. destruct H as (e & -> & H). now apply Z.ltb_lt.
  - right. destruct H as (Hr & d & -> & H). split; [exact Hr|].
    now apply Z.ltb_lt.
Qed.

(** C7, as amended.  The sweep deletes exactly the records whose
    [expiresAt] is before the clock, or that are revoked with a [revokedAt]
    more than 30 days before the clock, keeps the others in order, and
    returns the number deleted.  After a reuse event, every record of the
    revoked family carries the event's [revokedAt]; a sweep that follows
    keeps such a record exactly when the record is not expired and the 30
    days since the event have not elapsed. *)
Theorem sweep_deletes_expired_or_stale_revoked (o : Oracle) :
  (forall w, exists w' n now today,
     run o cleanupExpiredTokens w = (w', inr n)
     /\ readDuring o w w' now /\ readDuring o w w' today
     /\ tokens w' = delete_where (sweepable now (addDays today (-30))) (tokens w)
     /\ (forall r, In r (tokens w') <->
           In r (tokens w)
           /\ ~ ((exists e, expiresAt r = Some e /\ e < now)
                 \/ (isRevoked r = true
                     /\ exists d, revokedAt r = Some d
                                  /\ d < addDays today (-30))))
     /\ n = count_where (sweepable now (addDays today (-30))) (tokens w)
     /\ Z.of_nat (List.length (tokens w))
        = n + Z.of_nat (List.length (tokens w')))
  /\ (forall env w tok opts payload doc,
        verifies_as_refresh o w tok payload ->
        matches_live w tok doc ->
        expiredAt (checkInstant o w) doc = false ->
        0 < useCount doc ->
        truthy (tokenFamily doc) = true ->
        exists w1 d,
          run o (refreshAuth env tok opts) w = (w1, inl ReuseDetected)
          /\ forall r, In r (tokens w1) -> sameFamily r doc ->
               isRevoked r = true /\ revokedAt r = Some d
               /\ forall w2 n,
                    run o cleanupExpiredTokens w1 = (w2, inr n) ->
                    (In r (tokens w2) <->
                     expiredAt (clock o (S (cursor w1))) r = false
                     /\ addDays (clock o (cursor w1)) (-30) <= d)).
Proof.
  split.
  - intros w. pose proof (cleanupExpiredTokens_run o w) as Hrun.
    cbv zeta in Hrun.
    eexists; eexists; exists (clock o (S (cursor w))), (clock o (cursor w)).
    split; [exact Hrun|]. cbn [tokens cursor].
    split; [apply readDuring_intro; cbn [cursor]; lia|].
    split; [apply readDuring_intro; cbn [cursor]; lia|].
    split; [reflexivity|].
    split.
    { intros r. rewrite In_delete_where, <- sweepable_spec.
      destruct (sweepable _ _ r); intuition congruence. }
    split; [reflexivity|].
    unfold count_where, delete_where.
    pose proof (filter_partition_length
                  (sweepable (clock o (S (cursor w)))
                             (addDays (clock o (cursor w)) (-30)))
                  (tokens w)).
    lia.
  - intros env w tok opts payload doc Hv Hm He Hu Hfam.
    pose proof (refreshAuth_reuse_family_path o env w tok opts payload doc
                  Hv Hm He Hu Hfam) as Hrun.
    eexists; exists (clock o (cursorAfterChecks w doc)).
    split; [exact Hrun|]. cbn [tokens cursor].
    intros r Hin Hs. apply In_update_where in Hin as (r0 & Hin0 & Hr).
    assert (Hf : in_family (tokenFamily doc) r0 = true).
    { destruct (in_family (tokenFamily doc) r0) eqn:Hf; [reflexivity|].
      subst r. apply (in_family_truthy _ r0 Hfam) in Hs. congruence. }
    rewrite Hf in Hr.
    split; [subst r; reflexivity|]. split; [subst r; reflexivity|].
    intros w2 n Hsweep. rewrite cleanupExpiredTokens_run in Hsweep.
    cbn [tokens cursor] in Hsweep. injection Hsweep as Hw2 _. subst w2.
    cbn [tokens]. rewrite In_delete_where.
    assert (Hin1 : In r (update_where (in_family (tokenFamily doc))
                           (data_revoked (clock o (cursorAfterChecks w doc))
                                         reuseReason) (tokens w))).
    { apply In_update_where. exists r0. rewrite Hf. now split. }
    unfold sweepable, expiredAt. subst r. cbn [isRevoked revokedAt expiresAt data_revoked opt_lt].
    rewrite orb_false_iff, andb_true_l, Z.ltb_ge.
    tauto.
Qed.

Lemma sweep_deletes_expired_or_stale_revoked_witness :
  exists w1 w2 n,
    run Fixture.oracle (refreshAuth Fixture.env "refresh.x" Fixture.noContext)
        Fixture.familyWorld = (w1, inl ReuseDetected)
    /\ run Fixture.oracle cleanupExpiredTokens w1 = (w2, inr n)
    /\ In (data_revoked (Fixture.t0 + 2) reuseReason
             (Fixture.row "id-2" "refresh.y" Fixture.fam 0
                (Fixture.t0 + 7 * msPerDay)))
          (tokens w2).
Proof.
  destruct (proj2 (sweep_deletes_expired_or_stale_revoked Fixture.oracle)
              Fixture.env Fixture.familyWorld "refresh.x"%string Fixture.noContext
              Fixture.refreshPayload
              (Fixture.row "id-1" "refresh.x" Fixture.fam 1
                 (Fixture.t0 + 7 * msPerDay)))
    as (w1 & d & Hrun & Hall).
  - split; reflexivity.
  - reflexivity.
  - reflexivity.
  - reflexivity.
  - reflexivity.
  - exists w1. eexists; eexists. split; [exact Hrun|].
    vm_compute in Hrun. injection Hrun as Hw1. subst w1.
    split; [reflexivity|].
    destruct (Hall (data_revoked (Fixture.t0 + 2) reuseReason
                      (Fixture.row "id-2" "refresh.y" Fixture.fam 0
                         (Fixture.t0 + 7 * msPerDay))))
      as (_ & Hd & Hkeep).
    + right; right; left; reflexivity.
    + reflexivity.
    + injection Hd as Hd. subst d.
      apply (Hkeep _ _ eq_refl). split; [reflexivity|].
      vm_compute. discriminate.
Defined.

(** C7 as worded fails: the reuse event also revokes a link of the family
    that is past its expiry, and the sweep that follows at once deletes that
    link although the 30 days have not elapsed. *)
Lemma sweep_spares_reuse_rows_counterexample :
  ~ sweep_spares_reuse_rows Fixture.oracle Fixture.env Fixture.familyWorld
      "refresh.x" Fixture.noContext.
Proof.
  intros H.
  pose proof (H _ _ _ eq_refl eq_refl
                (data_revoked (Fixture.t0 + 2) reuseReason
                   (Fixture.staleLink "id-0" "refresh.v" Fixture.fam))
                (or_introl eq_refl) eq_refl eq_refl) as Hin.
  vm_compute in Hin.
  destruct Hin as [Hin|[Hin|[Hin|[]]]]; discriminate Hin.
Qed.

(* ------------------------------------------------------------------ *)
(** ** Two presentations of one fresh token *)

(** C2, as amended.  The lookup and the marking update of [refreshAuth]
    are separate store operations.  When two calls presenting the same
    fresh token run one after the other, the first returns a pair and the
    second fails, with the codec's failure or [TokenNotFound], and changes
    nothing, provided no other live record carries the token and the
    refresh token just minted differs from it. *)
Theorem rotate_twice_in_sequence_second_fails
  (o : Oracle) (env : Env) (w : World) (tok : string)
  (optsA optsB : IToken.t) (payload : JWTPayload.t) (doc : Token) :
  verifies_as_refresh o w tok payload ->
  matches_live w tok doc ->
  expiredAt (checkInstant o w) doc = false ->
  useCount doc = 0 ->
  forallb (fun r => implb (live_refresh_with tok r) (has_id (id doc) r))
          (tokens w) = true ->
  exists w1 pairA,
    run o (refreshAuth env tok optsA) w = (w1, inr pairA)
    /\ (String.eqb (Issued.token (refresh pairA)) tok = false ->
        exists w2 e,
          run o (refreshAuth env tok optsB) w1 = (w2, inl e)
          /\ (e = InvalidSignature \/ e = NotARefreshToken
              \/ e = TokenNotFound)
          /\ tokens w2 = tokens w1).
Proof.
  intros Hv Hm He Hu Huniq.
  assert (Hu' : useCount doc <= 0) by lia.
  pose proof (refreshAuth_fresh_path o env w tok optsA payload doc
                Hv Hm He Hu') as Hrun. cbv zeta in Hrun.
  eexists; eexists. split; [exact Hrun|].
  cbn [refresh Issued.token]. intros Hnew.
  apply refreshAuth_unmatched. cbn [tokens].
  apply find_none_iff. intros r Hin.
  apply in_app_or in Hin as [Hin|[Hin|[]]].
  - apply In_update_where in Hin as (r0 & Hin0 & ->).
    destruct (has_id (id doc) r0) eqn:Hid.
    + unfold live_refresh_with. cbn [isRevoked data_rotated].
      now rewrite andb_false_r.
    + rewrite forallb_forall in Huniq. specialize (Huniq r0 Hin0).
      rewrite Hid in Huniq.
      destruct (live_refresh_with tok r0); [discriminate|reflexivity].
  - subst r. unfold live_refresh_with. cbn [token]. now rewrite Hnew.
Qed.

Lemma rotate_twice_in_sequence_second_fails_witness :
  exists w1 pairA w2,
    run Fixture.oracle (refreshAuth Fixture.env "refresh.x" Fixture.noContext)
        Fixture.freshWorld = (w1, inr pairA)
    /\ run Fixture.oracle (refreshAuth Fixture.env "refresh.x" Fixture.newPhone)
           w1 = (w2, inl TokenNotFound).
Proof.
  destruct (rotate_twice_in_sequence_second_fails
              Fixture.oracle Fixture.env Fixture.freshWorld "refresh.x"
              Fixture.noContext Fixture.newPhone Fixture.refreshPayload
              (Fixture.row "id-1" "refresh.x" Fixture.fam 0
                 (Fixture.t0 + 7 * msPerDay)))
    as (w1 & pairA & HrunA & HB).
  - split; reflexivity.
  - reflexivity.
  - reflexivity.
  - reflexivity.
  - reflexivity.
  - exists w1, pairA.
    vm_compute in HrunA. injection HrunA as Hw1 Hpair. subst w1 pairA.
    destruct (HB eq_refl) as (w2 & e & HrunB & _ & _).
    exists w2. split; [reflexivity|].
    rewrite HrunB. vm_compute in HrunB. injection HrunB as _ He.
    now subst e.
Defined.

(** C2 as worded fails: two calls present the same fresh token and suspend
    at each store operation in turn; both look the record up before either
    marks it, and both return a pair. *)
Lemma rotation_is_atomic_counterexample :
  ~ rotation_is_atomic Fixture.oracle Fixture.env Fixture.freshWorld
      "refresh.x" Fixture.noContext Fixture.newPhone.
Proof.
  intros H.
  pose proof (H Fixture.refreshPayload
                (Fixture.row "id-1" "refresh.x" Fixture.fam 0
                   (Fixture.t0 + 7 * msPerDay))
                (conj eq_refl eq_refl) eq_refl eq_refl eq_refl
                Fixture.alternating _ _ _ eq_refl eq_refl eq_refl) as Hx.
  vm_compute in Hx. discriminate Hx.
Qed.

Lemma resume_run {A} (o : Oracle) (p : Prog A) (w : World) :
  run o (fst (resume o p w)) (snd (resume o p w)) = run o p w.
Proof.
  revert w. induction p as [a|e|X op k IH]; intros w; try reflexivity.
  simpl. destruct (exec o op w) as [x w'].
  destruct (isAwait op); [reflexivity|apply IH].
Qed.

(* ------------------------------------------------------------------ *)
(** ** Revocation stamps *)

Lemma data_revoked_paired d reason r :
  revocationPaired (data_revoked d reason r) = true.
Proof. reflexivity. Qed.

Lemma update_where_revoked_paired p d reason l :
  forallb revocationPaired l = true ->
  forallb revocationPaired (update_where p (data_revoked d reason) l) = true.
Proof.
  rewrite !forallb_forall. intros H r Hin.
  apply In_update_where in Hin as (r0 & Hin0 & ->).
  destruct (p r0); [reflexivity|now apply H].
Qed.

Lemma delete_where_paired p l :
  forallb revocationPaired l = true ->
  forallb revocationPaired (delete_where p l) = true.
Proof.
  rewrite !forallb_forall. intros H r Hin.
  apply In_delete_where in Hin as [Hin _]. now apply H.
Qed.

(** The revoking operations stamp [revokedAt] and [revokedReason]
    together. *)
Lemma revokeRefreshToken_keeps_pairing o t reason w :
  forallb revocationPaired (tokens w) = true ->
  forallb revocationPaired
    (tokens (fst (run o (revokeRefreshToken t reason) w))) = true.
Proof. intros H. cbn. now apply update_where_revoked_paired. Qed.

Lemma revokeAllForUser_keeps_pairing o u reason w :
  forallb revocationPaired (tokens w) = true ->
  forallb revocationPaired
    (tokens (fst (run o (revokeAllForUser u reason) w))) = true.
Proof. intros H. cbn. now apply update_where_revoked_paired. Qed.

Lemma revokeSession_keeps_pairing o u sessionId w :
  forallb revocationPaired (tokens w) = true ->
  forallb revocationPaired
    (tokens (fst (run o (revokeSession u sessionId) w))) = true.
Proof.
  intros H. unfold revokeSession. cbn.
  destruct (find _ (tokens w)); cbn; [|exact H].
  destruct (existsb (has_id sessionId) (tokens w)); cbn;
    now apply update_where_revoked_paired.
Qed.

Lemma cleanupExpiredTokens_keeps_pairing o w :
  forallb revocationPaired (tokens w) = true ->
  forallb revocationPaired
    (tokens (fst (run o cleanupExpiredTokens w))) = true.
Proof. intros H. cbn. now apply delete_where_paired. Qed.

Lemma generateLoginTokens_keeps_pairing o env opts w :
  forallb revocationPaired (tokens w) = true ->
  forallb revocationPaired
    (tokens (fst (run o (generateLoginTokens env opts) w))) = true.
Proof.
  intros H. rewrite generateLoginTokens_run. cbn [fst tokens].
  rewrite forallb_app, H. reflexivity.
Qed.

Lemma reuse_revocation_keeps_pairing o env w tok opts payload doc :
  verifies_as_refresh o w tok payload ->
  matches_live w tok doc ->
  expiredAt (checkInstant o w) doc = false ->
  0 < useCount doc ->
  forallb revocationPaired (tokens w) = true ->
  forallb revocationPaired
    (tokens (fst (run o (refreshAuth env tok opts) w))) = true.
Proof.
  intros Hv Hm He Hu H.
  destruct (truthy (tokenFamily doc)) eqn:Hfam.
  - rewrite (refreshAuth_reuse_family_path o env w tok opts payload doc
               Hv Hm He Hu Hfam).
    cbn [fst tokens]. now apply update_where_revoked_paired.
  - rewrite (refreshAuth_reuse_orphan_path o env w tok opts payload doc
               Hv Hm He Hu Hfam).
    exact H.
Qed.

(** The rotation update writes [revokedReason] and leaves [revokedAt] as it
    was: a record consumed by a successful rotation that had no
    [revokedAt], as every record [saveToken] writes, ends with a reason and
    no [revokedAt]. *)
Lemma rotation_breaks_pairing o env w tok opts payload doc :
  verifies_as_refresh o w tok payload ->
  matches_live w tok doc ->
  expiredAt (checkInstant o w) doc = false ->
  useCount doc = 0 ->
  revokedAt doc = None ->
  exists r,
    In r (tokens (fst (run o (refreshAuth env tok opts) w)))
    /\ id r = id doc
    /\ revokedReason r = Some "Token rotated"%string
    /\ revokedAt r = None
    /\ revocationPaired r = false.
Proof.
  intros Hv Hm He Hu Hnone.
  assert (Hu' : useCount doc <= 0) by lia.
  rewrite (refreshAuth_fresh_path o env w tok opts payload doc Hv Hm He Hu').
  cbn [fst tokens].
  exists (data_rotated (clock o (cursorAfterChecks w doc)) doc).
  split.
  { apply in_or_app. left. apply In_update_where. exists doc.
    apply find_some in Hm as [Hin _]. split; [exact Hin|].
    now rewrite (proj2 (has_id_true (id doc) doc) eq_refl). }
  unfold revocationPaired. cbn [id revokedReason revokedAt data_rotated].
  rewrite Hnone. repeat split.
Qed.

(** C6, the failing input.  Every record of the store has [revokedAt] and
    [revokedReason] both absent; a fresh token is rotated; the consumed
    record ends with the reason ["Token rotated"] and no [revokedAt]. *)
Theorem rotation_sets_reason_without_revokedAt :
  exists w' pair r,
    forallb revocationPaired (tokens Fixture.freshWorld) = true
    /\ run Fixture.oracle
         (refreshAuth Fixture.env "refresh.x" Fixture.noContext)
         Fixture.freshWorld = (w', inr pair)
    /\ In r (tokens w')
    /\ id r = "id-1"%string
    /\ isRevoked r = true
    /\ revokedReason r = Some "Token rotated"%string
    /\ revokedAt r = None
    /\ forallb revocationPaired (tokens w') = false.
Proof.
  eexists; eexists; eexists.
  split; [reflexivity|].
  split; [vm_compute; reflexivity|].
  split; [left; reflexivity|].
  repeat split.
Qed.

(* ------------------------------------------------------------------ *)
(** ** What the successor record inherits *)

(** The record a successful rotation appends: [deviceId], [userAgent] and
    [ipAddress] come from the request when it supplies them and from the
    consumed record otherwise; [deviceName], [rememberMe], [metadata] and
    [tokenFamily] always come from the consumed record. *)
Lemma rotation_successor_fields o env w tok opts payload doc :
  verifies_as_refresh o w tok payload ->
  matches_live w tok doc ->
  expiredAt (checkInstant o w) doc = false ->
  useCount doc = 0 ->
  exists rows newRow,
    tokens (fst (run o (refreshAuth env tok opts) w)) = rows ++ [newRow]
    /\ deviceId newRow = nullish (IToken.deviceId opts) (deviceId doc)
    /\ userAgent newRow = nullish (IToken.userAgent opts) (userAgent doc)
    /\ ipAddress newRow = nullish (IToken.ipAddress opts) (ipAddress doc)
    /\ deviceName newRow = deviceName doc
    /\ rememberMe newRow = rememberMe doc
    /\ metadata newRow = metadata doc
    /\ tokenFamily newRow = tokenFamily doc.
Proof.
  intros Hv Hm He Hu.
  assert (Hu' : useCount doc <= 0) by lia.
  rewrite (refreshAuth_fresh_path o env w tok opts payload doc Hv Hm He Hu').
  cbn [fst tokens]. eexists; eexists. split; [reflexivity|].
  repeat split.
Qed.

(** C9, the failing input.  A fresh token whose record names the device
    ["Old phone"] is rotated by a request that supplies all four device
    fields; the new record takes [deviceId], [userAgent] and [ipAddress]
    from the request and keeps the consumed record's [deviceName]. *)
Theorem rotation_ignores_supplied_deviceName :
  exists w' pair consumed newRow,
    run Fixture.oracle
        (refreshAuth Fixture.env "refresh.x" Fixture.newPhone)
        Fixture.freshWorld = (w', inr pair)
    /\ tokens w' = [consumed; newRow]
    /\ IToken.deviceName Fixture.newPhone = Some "New phone"%string
    /\ deviceName newRow = Some "Old phone"%string
    /\ deviceId newRow = IToken.deviceId Fixture.newPhone
    /\ userAgent newRow = IToken.userAgent Fixture.newPhone
    /\ ipAddress newRow = IToken.ipAddress Fixture.newPhone.
Proof.
  eexists; eexists; eexists; eexists.
  split; [vm_compute; reflexivity|].
  repeat split.
Qed.

(* ------------------------------------------------------------------ *)
(** ** Session listing *)

Lemma In_insert_by le x l (r : Token) :
  In r (insert_by le x l) <-> r = x \/ In r l.
Proof.
  induction l as [|y l IH]; simpl.
  - intuition congruence.
  - destruct (le x y); simpl; [intuition congruence|].
    rewrite IH. intuition congruence.
Qed.

Lemma In_sort_by le l (r : Token) : In r (sort_by le l) <-> In r l.
Proof.
  unfold sort_by. induction l as [|y l IH]; simpl; [reflexivity|].
  rewrite In_insert_by, IH. intuition congruence.
Qed.

Lemma In_page sk tk l (r : Token) : In r (opt_take tk (opt_skip sk l)) -> In r l.
Proof.
  intros H.
  assert (H1 : In r (opt_skip sk l)).
  { destruct tk as [k|]; simpl in H; [|exact H].
    rewrite <- (firstn_skipn (Z.to_nat k) (opt_skip sk l)).
    apply in_or_app. now left. }
  destruct sk as [k|]; simpl in H1; [|exact H1].
  rewrite <- (firstn_skipn (Z.to_nat k) l). apply in_or_app. now right.
Qed.

(** [listUserSessions] answers with whole rows of the table: every row of
    the page is a stored record, its [token] column included. *)
Lemma listUserSessions_returns_rows o options filters w :
  exists res,
    run o (listUserSessions o options filters) w = (w, inr res)
    /\ forall r, In r (data res) ->
         In r (tokens w) /\ queryFilters o filters r = true.
Proof.
  unfold listUserSessions, paginate. cbn.
  eexists. split; [reflexivity|]. cbn [data].
  intros r Hin. apply (In_page (Some _) (Some _)) in Hin.
  destruct (PaginationOptions.sort options);
    [apply In_sort_by in Hin|]; apply filter_In in Hin; exact Hin.
Qed.

(** The listing of the second copy of the service projects each row to
    the columns of its [select], which leave [token] out. *)
Lemma listUserSessions_selected_run o u w :
  exists rows,
    run o (listUserSessions_selected u) w
    = (tick w, inr (map select_summary rows))
    /\ forall r, In r rows -> In r (tokens w) /\ userId r = u.
Proof.
  unfold listUserSessions_selected. cbn.
  eexists. split; [reflexivity|].
  intros r Hin. apply In_sort_by, filter_In in Hin as [Hin Hp].
  split; [exact Hin|].
  apply andb_prop in Hp as [Hp _]. apply andb_prop in Hp as [Hp _].
  apply andb_prop in Hp as [Hp _]. now apply String.eqb_eq.
Qed.

(** C8, the failing input.  The store holds one refresh record with the
    token value ["refresh.x"]; the listing with default paging and no
    filter returns that record with its token value. *)
Theorem listUserSessions_returns_token_value :
  exists res,
    run Fixture.oracle
        (listUserSessions Fixture.oracle Fixture.defaultPage Fixture.noFilters)
        Fixture.freshWorld = (Fixture.freshWorld, inr res)
    /\ map token (tokens Fixture.freshWorld) = ["refresh.x"%string]
    /\ map token (data res) = ["refresh.x"%string].
Proof.
  eexists. split; [vm_compute; reflexivity|].
  split; reflexivity.
Qed.

(* ------------------------------------------------------------------ *)
(** ** Every outcome of [refreshAuth] *)

Lemma verifyToken_throws o w t name :
  jwt_verify o (cursor w) t = JwtThrows name ->
  exists e, run o (jwt.verifyToken t) w = (tick w, inl (ApiErr e))
            /\ (statusCode e = status.UNAUTHORIZED
                <-> name = "TokenExpiredError"%string)
            /\ (statusCode e = status.FORBIDDEN
                <-> name <> "TokenExpiredError"%string).
Proof.
  intros Hv. unfold jwt.verifyToken. cbn. rewrite Hv.
  destruct (String.eqb name "TokenExpiredError") eqn:H1.
  - apply String.eqb_eq in H1. eexists. split; [reflexivity|].
    cbn. unfold status.UNAUTHORIZED, status.FORBIDDEN.
    split; split; intros; try reflexivity; try assumption; try lia;
      contradiction.
  - apply String.eqb_neq in H1.
    destruct (String.eqb name "JsonWebTokenError");
      [|destruct (String.eqb name "NotBeforeError")];
      (eexists; split; [reflexivity|]; cbn;
       unfold status.UNAUTHORIZED, status.FORBIDDEN;
       split; split; intros; try reflexivity; try assumption;
       try lia; try contradiction).
Qed.

Lemma refreshAuth_bad_signature o env w tok opts name :
  jwt_verify o (cursor w) tok = JwtThrows name ->
  run o (refreshAuth env tok opts) w = (tick w, inl InvalidSignature).
Proof.
  intros Hv. unfold refreshAuth, jwt.verifyToken. cbn. rewrite Hv.
  destruct (String.eqb name "TokenExpiredError"); cbn; [reflexivity|].
  destruct (String.eqb name "JsonWebTokenError"); cbn; [reflexivity|].
  destruct (String.eqb name "NotBeforeError"); reflexivity.
Qed.

Lemma refreshAuth_wrong_kind o env w tok opts p :
  jwt_verify o (cursor w) tok = JwtVerified p ->
  String.eqb (JWTPayload.type p) "refresh" = false ->
  run o (refreshAuth env tok opts) w = (tick w, inl NotARefreshToken).
Proof.
  intros Hv Hty. unfold refreshAuth, jwt.verifyToken. cbn. rewrite Hv. cbn.
  rewrite Hty. reflexivity.
Qed.

Lemma refreshAuth_not_found o env w tok opts p :
  verifies_as_refresh o w tok p ->
  find (live_refresh_with tok) (tokens w) = None ->
  run o (refreshAuth env tok opts) w = (tick w, inl TokenNotFound).
Proof.
  intros [Hv Hty] Hnone. unfold refreshAuth, jwt.verifyToken. cbn.
  rewrite Hv. cbn. rewrite Hty. cbn. rewrite Hnone. reflexivity.
Qed.

Lemma refreshAuth_outcome o env w tok opts :
  RefreshOutcome o w tok (run o (refreshAuth env tok opts) w).
Proof.
  destruct (jwt_verify o (cursor w) tok) as [p|name] eqn:Hv.
  2:{ rewrite (refreshAuth_bad_signature o env w tok opts name Hv).
      now apply (OutInvalid o w tok name). }
  destruct (String.eqb (JWTPayload.type p) "refresh") eqn:Hty.
  2:{ rewrite (refreshAuth_wrong_kind o env w tok opts p Hv Hty).
      apply (OutWrongKind o w tok p Hv). now apply String.eqb_neq. }
  apply String.eqb_eq in Hty.
  assert (Hvr : verifies_as_refresh o w tok p) by (split; assumption).
  destruct (find (live_refresh_with tok) (tokens w)) as [doc|] eqn:Hf.
  2:{ rewrite (refreshAuth_not_found o env w tok opts p Hvr Hf).
      now apply (OutNotFound o w tok p). }
  destruct (expiredAt (checkInstant o w) doc) eqn:He.
  { rewrite (refreshAuth_expired_path o env w tok opts p doc Hvr Hf He).
    now apply (OutExpired o w tok p doc). }
  destruct (Z.ltb_spec 0 (useCount doc)) as [Hu|Hu].
  - destruct (truthy (tokenFamily doc)) eqn:Hfam.
    + rewrite (refreshAuth_reuse_family_path o env w tok opts p doc
                 Hvr Hf He Hu Hfam).
      now apply (OutReuseFamily o w tok p doc _
                   (clock o (cursorAfterChecks w doc))).
    + rewrite (refreshAuth_reuse_orphan_path o env w tok opts p doc
                 Hvr Hf He Hu Hfam).
      now apply (OutReuseOrphan o w tok p doc).
  - rewrite (refreshAuth_fresh_path o env w tok opts p doc Hvr Hf He Hu).
    eapply (OutRotated o w tok p doc); try eassumption.
    + reflexivity.
    + unfold successorOf. cbn. repeat split. eexists; reflexivity.
    + reflexivity.
    + exists (6 + cursorAfterChecks w doc)%nat. cbn [cursor id].
      pose proof (cursorAfterChecks_bounds w doc). split; [lia|reflexivity].
Qed.

(** X1.  In a run in which the store and the libraries answer every
    operation, [refreshAuth] returns a pair or throws one of its five
    errors, each with status 403.  Whatever failure the codec reports, an
    expired token included, for which [verifyToken] alone answers 401, the
    error is the 403 [Invalid refresh token (signature).].  When the error
    is one of the first three (bad signature, wrong kind, no live record)
    the store is unchanged. *)
Theorem refreshAuth_answers_pair_or_403
  (o : Oracle) (env : Env) (w : World) (tok : string) (opts : IToken.t) :
  exists w' r,
    run o (refreshAuth env tok opts) w = (w', r)
    /\ ((exists pair, r = inr pair)
        \/ ((r = inl InvalidSignature \/ r = inl NotARefreshToken
             \/ r = inl TokenNotFound) /\ tokens w' = tokens w)
        \/ r = inl TokenExpired \/ r = inl ReuseDetected)
    /\ (forall e, r = inl e ->
          exists m, e = ApiErr {| statusCode := 403; message := m |})
    /\ (forall name, jwt_verify o (cursor w) tok = JwtThrows name ->
          r = inl InvalidSignature
          /\ InvalidSignature
             = ApiErr {| statusCode := 403;
                         message := "Invalid refresh token (signature)." |}).
Proof.
  pose proof (refreshAuth_outcome o env w tok opts) as H.
  assert (Hremap : forall name,
            jwt_verify o (cursor w) tok = JwtThrows name ->
            snd (run o (refreshAuth env tok opts) w) = inl InvalidSignature).
  { intros name Hv.
    now rewrite (refreshAuth_bad_signature o env w tok opts name Hv). }
  destruct (run o (refreshAuth env tok opts) w) as [w' r].
  cbn [snd] in Hremap.
  exists w', r. split; [reflexivity|].
  assert (Hlast : forall name, jwt_verify o (cursor w) tok = JwtThrows name ->
            r = inl InvalidSignature
            /\ InvalidSignature
               = ApiErr {| statusCode := 403;
                           message := "Invalid refresh token (signature)." |})
    by (intros name Hv; split; [exact (Hremap name Hv)|reflexivity]).
  inversion H; subst;
    (split; [|split; [intros e0 He0; inversion He0; subst;
                      eexists; reflexivity|exact Hlast]]).
  - right; left. split; [now left|reflexivity].
  - right; left. split; [now right; left|reflexivity].
  - right; left. split; [now right; right|reflexivity].
  - right; right; now left.
  - right; right; now right.
  - right; right; now right.
  - left. eexists; reflexivity.
Qed.

Lemma refreshAuth_answers_pair_or_403_witness :
  exists e,
    Fixture.oracle.(jwt_verify) 0%nat "garbage"
    = JwtThrows "JsonWebTokenError"
    /\ run Fixture.oracle
         (refreshAuth Fixture.env "garbage" Fixture.noContext)
         Fixture.freshWorld = (tick Fixture.freshWorld, inl (ApiErr e))
    /\ statusCode e = 403.
Proof.
  destruct (refreshAuth_answers_pair_or_403 Fixture.oracle Fixture.env
              Fixture.freshWorld "garbage" Fixture.noContext)
    as (w' & r & Hrun & _ & _ & Hremap).
  destruct (Hremap "JsonWebTokenError"%string eq_refl) as [Hr _].
  subst r. eexists. split; [reflexivity|].
  vm_compute in Hrun. injection Hrun as Hw. subst w'.
  split; reflexivity.
Defined.

(* ------------------------------------------------------------------ *)
(** ** Explicit revocation *)

Lemma tokenType_eqb_eq a b : tokenType.eqb a b = true <-> a = b.
Proof. destruct a, b; simpl; split; congruence. Qed.

Lemma update_where_none p f (l : list Token) :
  (forall r, In r l -> p r = false) -> update_where p f l = l.
Proof.
  intros H. unfold update_where. induction l as [|x l IH]; [reflexivity|].
  simpl. rewrite (H x (or_introl eq_refl)). f_equal.
  apply IH. intros r Hin. apply H. now right.
Qed.

Lemma count_where_none p (l : list Token) :
  (forall r, In r l -> p r = false) -> count_where p l = 0.
Proof.
  intros H. unfold count_where.
  replace (filter p l) with (@nil Token); [reflexivity|].
  symmetry. induction l as [|x l IH]; [reflexivity|].
  simpl. rewrite (H x (or_introl eq_refl)).
  apply IH. intros r Hin. apply H. now right.
Qed.

Lemma count_where_pos p (l : list Token) :
  0 < count_where p l <-> exists r, In r l /\ p r = true.
Proof.
  unfold count_where. split.
  - intros H. destruct (filter p l) as [|x l'] eqn:Hf; [simpl in H; lia|].
    exists x. apply filter_In. rewrite Hf. now left.
  - intros (r & Hin & Hp).
    assert (Hr : In r (filter p l)) by (apply filter_In; now split).
    destruct (filter p l); [contradiction|]. simpl. lia.
Qed.

Lemma update_where_length p f (l : list Token) :
  List.length (update_where p f l) = List.length l.
Proof. unfold update_where. apply length_map. Qed.

Lemma revokeRefreshToken_run o t reason w :
  run o (revokeRefreshToken t reason) w =
  ({| tokens := update_where (live_refresh_with t)
                  (data_revoked (clock o (cursor w))
                                (or_default reason "user_logout"%string))
                  (tokens w);
      cursor := S (cursor w) |},
   inr (0 <? count_where (live_refresh_with t) (tokens w))).
Proof. reflexivity. Qed.

Lemma live_refresh_with_revoked t d reason r :
  live_refresh_with t (data_revoked d reason r) = false.
Proof. unfold live_refresh_with. cbn. apply andb_false_r. Qed.

Lemma no_live_after_revoke t d reason l r :
  In r (update_where (live_refresh_with t) (data_revoked d reason) l) ->
  live_refresh_with t r = false.
Proof.
  intros Hin. apply In_update_where in Hin as (r0 & _ & ->).
  destruct (live_refresh_with t r0) eqn:H; [|exact H].
  apply live_refresh_with_revoked.
Qed.

(** X2.  [revokeRefreshToken] answers [true] exactly when some live
    refresh record carries the token value.  It revokes every such record
    with the given reason ([user_logout] when none is given), leaves every
    other record as it was, and neither adds nor removes a record. *)
Theorem revokeRefreshToken_revokes_live_matches
  (o : Oracle) (t : string) (reason : option string) (w : World) :
  exists w' b d,
    run o (revokeRefreshToken t reason) w = (w', inr b)
    /\ (b = true <-> exists r, In r (tokens w) /\ token r = t
                      /\ type r = tokenType.refresh /\ isRevoked r = false)
    /\ (forall r, In r (tokens w) -> live_refresh_with t r = true ->
          In (data_revoked d (or_default reason "user_logout"%string) r)
             (tokens w'))
    /\ (forall r, In r (tokens w) -> live_refresh_with t r = false ->
          In r (tokens w'))
    /\ (forall r, In r (tokens w') -> live_refresh_with t r = false)
    /\ map id (tokens w') = map id (tokens w).
Proof.
  eexists; eexists; exists (clock o (cursor w)).
  split; [apply revokeRefreshToken_run|]. cbn [tokens].
  split.
  { rewrite Z.ltb_lt, count_where_pos. unfold live_refresh_with.
    split; intros (r & Hin & H); exists r; (split; [exact Hin|]).
    - apply andb_prop in H as [H H3]. apply andb_prop in H as [H1 H2].
      apply String.eqb_eq in H1. apply tokenType_eqb_eq in H2.
      apply negb_true_iff in H3. now repeat split.
    - destruct H as (H1 & H2 & H3). rewrite H1, H2, H3.
      now rewrite String.eqb_refl. }
  split.
  { intros r Hin Hl. apply In_update_where. exists r. now rewrite Hl. }
  split.
  { intros r Hin Hl. apply In_update_where. exists r. now rewrite Hl. }
  split.
  { intros r. apply no_live_after_revoke. }
  unfold update_where. rewrite map_map. apply map_ext.
  intros r. now destruct (live_refresh_with t r).
Qed.

(** X3.  Revoking the same token value again answers [false] and changes
    no record: the first revocation's [revokedAt] and reason stay. *)
Theorem revokeRefreshToken_twice_is_noop
  (o : Oracle) (t : string) (reason1 reason2 : option string) (w : World) :
  exists w1 b w2,
    run o (revokeRefreshToken t reason1) w = (w1, inr b)
    /\ run o (revokeRefreshToken t reason2) w1 = (w2, inr false)
    /\ tokens w2 = tokens w1.
Proof.
  eexists; eexists; eexists.
  split; [apply revokeRefreshToken_run|].
  rewrite revokeRefreshToken_run. cbn [tokens cursor].
  rewrite count_where_none, update_where_none;
    try (intros r; apply no_live_after_revoke).
  split; reflexivity.
Qed.

(** X4.  A token value revoked by [revokeRefreshToken] can no longer be
    rotated: whatever the codec says of it, the next [refreshAuth] with it
    fails (bad signature, wrong kind, or not found) and changes no
    record. *)
Theorem revoked_token_cannot_rotate
  (o : Oracle) (env : Env) (t : string) (reason : option string)
  (opts : IToken.t) (w : World) :
  exists w1 b w2 e,
    run o (revokeRefreshToken t reason) w = (w1, inr b)
    /\ run o (refreshAuth env t opts) w1 = (w2, inl e)
    /\ (e = InvalidSignature \/ e = NotARefreshToken \/ e = TokenNotFound)
    /\ tokens w2 = tokens w1.
Proof.
  destruct (refreshAuth_unmatched o env
              (fst (run o (revokeRefreshToken t reason) w)) t opts)
    as (w2 & e & Hrun & He & Htok).
  { rewrite revokeRefreshToken_run. cbn [fst tokens].
    apply find_none_iff. intros r. apply no_live_after_revoke. }
  rewrite revokeRefreshToken_run in Hrun, Htok. cbn [fst] in Hrun, Htok.
  eexists; eexists; exists w2, e.
  split; [apply revokeRefreshToken_run|]. now repeat split.
Qed.

Lemma revokeAllForUser_run o u reason w :
  run o (revokeAllForUser u reason) w =
  ({| tokens := update_where (live_refresh_of u)
                  (data_revoked (clock o (cursor w))
                                (or_else reason allDevicesReason))
                  (tokens w);
      cursor := S (cursor w) |}, inr true).
Proof. reflexivity. Qed.

Lemma live_refresh_of_spec u r :
  live_refresh_of u r = true <->
  userId r = u /\ type r = tokenType.refresh /\ isRevoked r = false.
Proof.
  unfold live_refresh_of.
  rewrite !andb_true_iff, String.eqb_eq, tokenType_eqb_eq, negb_true_iff.
  tauto.
Qed.

(** X5.  [revokeAllForUser] always answers [true], also when it revokes
    nothing.  Afterwards the user has no live refresh record; each record
    it revoked carries the given reason, or the all-devices reason when
    none or an empty one is given; every other record, the records of
    other users among them, is as it was. *)
Theorem revokeAllForUser_leaves_no_live_session
  (o : Oracle) (u : string) (reason : option string) (w : World) :
  exists w' d,
    run o (revokeAllForUser u reason) w = (w', inr true)
    /\ (forall r, In r (tokens w') -> userId r = u ->
          type r = tokenType.refresh -> isRevoked r = true)
    /\ (forall r, In r (tokens w) -> live_refresh_of u r = true ->
          In (data_revoked d (or_else reason allDevicesReason) r) (tokens w'))
    /\ (forall r, In r (tokens w) -> live_refresh_of u r = false ->
          In r (tokens w'))
    /\ (forall r, In r (tokens w) -> userId r <> u -> In r (tokens w'))
    /\ or_else (Some ""%string) allDevicesReason = allDevicesReason
    /\ map id (tokens w') = map id (tokens w).
Proof.
  eexists; exists (clock o (cursor w)).
  split; [apply revokeAllForUser_run|]. cbn [tokens].
  split.
  { intros r Hin Hu Hty. apply In_update_where in Hin as (r0 & _ & ->).
    destruct (live_refresh_of u r0) eqn:Hl; [reflexivity|].
    destruct (isRevoked r0) eqn:Hr; [reflexivity|].
    assert (live_refresh_of u r0 = true)
      by (apply live_refresh_of_spec; now repeat split).
    congruence. }
  split.
  { intros r Hin Hl. apply In_update_where. exists r. now rewrite Hl. }
  split.
  { intros r Hin Hl. apply In_update_where. exists r. now rewrite Hl. }
  split.
  { intros r Hin Hne. apply In_update_where. exists r.
    split; [exact Hin|].
    destruct (live_refresh_of u r) eqn:Hl; [|reflexivity].
    apply live_refresh_of_spec in Hl as [Hu _]. contradiction. }
  split; [reflexivity|].
  unfold update_where. rewrite map_map. apply map_ext.
  intros r. now destruct (live_refresh_of u r).
Qed.

(** X6.  After [revokeAllForUser u], a token value whose live refresh
    records all belonged to [u] can no longer be rotated: [refreshAuth]
    fails (bad signature, wrong kind, or not found) and changes no
    record. *)
Theorem revokeAll_then_rotate_fails
  (o : Oracle) (env : Env) (u tok : string) (reason : option string)
  (opts : IToken.t) (w : World) :
  forallb (fun r => implb (live_refresh_with tok r) (String.eqb (userId r) u))
          (tokens w) = true ->
  exists w1 w2 e,
    run o (revokeAllForUser u reason) w = (w1, inr true)
    /\ run o (refreshAuth env tok opts) w1 = (w2, inl e)
    /\ (e = InvalidSignature \/ e = NotARefreshToken \/ e = TokenNotFound)
    /\ tokens w2 = tokens w1.
Proof.
  intros Hown. rewrite forallb_forall in Hown.
  destruct (refreshAuth_unmatched o env
              (fst (run o (revokeAllForUser u reason) w)) tok opts)
    as (w2 & e & Hrun & He & Htok).
  { rewrite revokeAllForUser_run. cbn [fst tokens].
    apply find_none_iff. intros r Hin.
    apply In_update_where in Hin as (r0 & Hin0 & ->).
    destruct (live_refresh_of u r0) eqn:Hl.
    - apply live_refresh_with_revoked.
    - destruct (live_refresh_with tok r0) eqn:Hlw; [|reflexivity].
      specialize (Hown r0 Hin0). rewrite Hlw in Hown. cbn in Hown.
      unfold live_refresh_with in Hlw. unfold live_refresh_of in Hl.
      apply andb_prop in Hlw as [Hlw H3]. apply andb_prop in Hlw as [_ H2].
      rewrite Hown, H2, H3 in Hl. discriminate. }
  rewrite revokeAllForUser_run in Hrun, Htok. cbn [fst] in Hrun, Htok.
  eexists; exists w2, e.
  split; [apply revokeAllForUser_run|]. now repeat split.
Qed.

Lemma revokeAll_then_rotate_fails_witness :
  exists w1 w2,
    run Fixture.oracle (revokeAllForUser "user-1" None) Scenario.twoUsers
    = (w1, inr true)
    /\ run Fixture.oracle
         (refreshAuth Fixture.env "refresh.x" Fixture.noContext) w1
       = (w2, inl TokenNotFound)
    /\ map isRevoked (tokens w2) = [true; true; false].
Proof.
  destruct (revokeAll_then_rotate_fails Fixture.oracle Fixture.env
              "user-1" "refresh.x" None Fixture.noContext Scenario.twoUsers)
    as (w1 & w2 & e & H1 & H2 & _ & Htok).
  - reflexivity.
  - exists w1, w2. split; [exact H1|].
    vm_compute in H1. injection H1 as Hw1. subst w1.
    rewrite Htok. split; [|reflexivity].
    rewrite H2. vm_compute in H2. injection H2 as _ He. now subst e.
Defined.

(* ------------------------------------------------------------------ *)
(** ** Revoking one session *)

Lemma NoDup_map_inj {A B} (f : A -> B) (l : list A) a b :
  NoDup (map f l) -> In a l -> In b l -> f a = f b -> a = b.
Proof.
  induction l as [|x l IH]; simpl; [contradiction|].
  intros Hnd Ha Hb Hf. inversion Hnd as [|? ? Hnot Hnd']; subst.
  destruct Ha as [->|Ha], Hb as [->|Hb].
  - reflexivity.
  - exfalso. apply Hnot. rewrite Hf. now apply in_map.
  - exfalso. apply Hnot. rewrite <- Hf. now apply in_map.
  - now apply IH.
Qed.

(** X7.  [revokeSession] checks ownership before it writes: when no
    refresh record has both the session id and the caller's user id, it
    throws the 404 [Session not found] and the world is exactly as before,
    so a user cannot revoke another user's session by its id. *)
Theorem revokeSession_of_another_user_is_refused
  (o : Oracle) (u sessionId : string) (w : World) :
  find (owned_session u sessionId) (tokens w) = None ->
  run o (revokeSession u sessionId) w = (w, inl SessionNotFound)
  /\ SessionNotFound
     = ApiErr {| statusCode := 404; message := "Session not found" |}.
Proof.
  intros Hnone. split; [|reflexivity].
  unfold revokeSession. cbn.
  change (fun r : Token =>
            String.eqb (id r) sessionId && String.eqb (userId r) u
            && tokenType.eqb (type r) tokenType.refresh)
    with (owned_session u sessionId).
  rewrite Hnone. reflexivity.
Qed.

Lemma revokeSession_of_another_user_is_refused_witness :
  run Fixture.oracle (revokeSession "user-1" "id-3") Scenario.twoUsers
  = (Scenario.twoUsers, inl SessionNotFound)
  /\ In (Scenario.other "id-3" "refresh.z") (tokens Scenario.twoUsers).
Proof.
  split.
  - apply (revokeSession_of_another_user_is_refused
             Fixture.oracle "user-1" "id-3" Scenario.twoUsers).
    reflexivity.
  - right; right; left; reflexivity.
Defined.

(** X8.  When the session belongs to the caller and ids are unique,
    [revokeSession] answers [true], stamps that record with a [revokedAt]
    from the clock and the reason [Revoked by user], also when the record
    was revoked before, and leaves every other record, the records of
    other users among them, as it was. *)
Theorem revokeSession_revokes_only_that_session
  (o : Oracle) (u sessionId : string) (w : World) (r0 : Token) :
  find (owned_session u sessionId) (tokens w) = Some r0 ->
  NoDup (map id (tokens w)) ->
  exists w',
    run o (revokeSession u sessionId) w = (w', inr true)
    /\ In (data_revoked (clock o (cursor w)) "Revoked by user" r0) (tokens w')
    /\ (forall r, In r (tokens w) -> r <> r0 -> In r (tokens w'))
    /\ (forall r, In r (tokens w) -> userId r <> u -> In r (tokens w'))
    /\ map id (tokens w') = map id (tokens w).
Proof.
  intros Hfind Hnd.
  pose proof (find_some _ _ Hfind) as [Hin0 Hown].
  unfold owned_session in Hown.
  apply andb_prop in Hown as [Hown _]. apply andb_prop in Hown as [Hid Hu].
  apply String.eqb_eq in Hid. apply String.eqb_eq in Hu.
  assert (Hex : existsb (has_id sessionId) (tokens w) = true).
  { rewrite <- Hid. exact (find_existsb_id _ _ _ Hfind). }
  assert (Hframe : forall r, In r (tokens w) -> r <> r0 ->
            In r (update_where (has_id sessionId)
                    (data_revoked (clock o (cursor w)) "Revoked by user")
                    (tokens w))).
  { intros r Hin Hne. apply In_update_where. exists r. split; [exact Hin|].
    destruct (has_id sessionId r) eqn:Hh; [|reflexivity].
    apply has_id_true in Hh. exfalso. apply Hne.
    apply (NoDup_map_inj id (tokens w)); try assumption. congruence. }
  eexists. split.
  { unfold revokeSession. cbn.
    change (fun r : Token =>
              String.eqb (id r) sessionId && String.eqb (userId r) u
              && tokenType.eqb (type r) tokenType.refresh)
      with (owned_session u sessionId).
    rewrite Hfind. cbn. rewrite Hex. reflexivity. }
  cbn [tokens with_tokens]. split.
  { apply In_update_where. exists r0. split; [exact Hin0|].
    now rewrite (proj2 (has_id_true sessionId r0) Hid). }
  split; [exact Hframe|]. split.
  { intros r Hin Hne. apply Hframe; [exact Hin|]. congruence. }
  unfold update_where. rewrite map_map. apply map_ext.
  intros r. now destruct (has_id sessionId r).
Qed.

Lemma revokeSession_revokes_only_that_session_witness :
  exists w',
    run Fixture.oracle (revokeSession "user-1" "id-1") Scenario.twoUsers
    = (w', inr true)
    /\ map isRevoked (tokens w') = [true; true; false].
Proof.
  destruct (revokeSession_revokes_only_that_session
              Fixture.oracle "user-1" "id-1" Scenario.twoUsers
              (Fixture.row "id-1" "refresh.x" Fixture.fam 0
                 (Fixture.t0 + 7 * msPerDay)))
    as (w' & Hrun & _).
  - reflexivity.
  - repeat constructor; simpl; intuition discriminate.
  - exists w'. split; [exact Hrun|].
    vm_compute in Hrun. injection Hrun as Hw. subst w'. reflexivity.
Defined.

(* ------------------------------------------------------------------ *)
(** ** The codec wrappers *)

(** X9.  [jwt.verifyToken] turns a failure of the library into an
    [ApiError] whose status is 401 exactly when the library reports
    [TokenExpiredError] and 403 for every other failure. *)
Theorem verifyToken_status_of_failure
  (o : Oracle) (w : World) (t name : string) :
  jwt_verify o (cursor w) t = JwtThrows name ->
  exists e,
    run o (jwt.verifyToken t) w = (tick w, inl (ApiErr e))
    /\ (statusCode e = 401 <-> name = "TokenExpiredError"%string)
    /\ (statusCode e = 403 <-> name <> "TokenExpiredError"%string).
Proof. apply verifyToken_throws. Qed.

Lemma verifyToken_status_of_failure_witness :
  exists e,
    run Fixture.oracle (jwt.verifyToken "garbage") Fixture.freshWorld
    = (tick Fixture.freshWorld, inl (ApiErr e))
    /\ statusCode e = 403.
Proof.
  destruct (verifyToken_status_of_failure Fixture.oracle Fixture.freshWorld
              "garbage" "JsonWebTokenError") as (e & Hrun & _ & H403).
  - reflexivity.
  - exists e. split; [exact Hrun|]. apply H403. discriminate.
Defined.

(** X10.  [verifyAccessToken] returns the claims exactly when the library
    verifies the string and its [type] claim is [access]; in every other
    case it throws the same 401 [Invalid access token.], whatever the
    library's failure was.  It never touches the records. *)
Theorem verifyAccessToken_accepts_only_access
  (o : Oracle) (w : World) (t : string) :
  exists r,
    run o (verifyAccessToken t) w = (tick w, r)
    /\ (forall p, r = inr p <->
          jwt_verify o (cursor w) t = JwtVerified p
          /\ JWTPayload.type p = "access"%string)
    /\ ((exists p, r = inr p) \/ r = inl InvalidAccessToken)
    /\ InvalidAccessToken
       = ApiErr {| statusCode := 401; message := "Invalid access token." |}
    /\ tokens (tick w) = tokens w.
Proof.
  unfold verifyAccessToken, jwt.verifyToken. cbn.
  destruct (jwt_verify o (cursor w) t) as [p|name] eqn:Hv; cbn.
  - destruct (String.eqb (JWTPayload.type p) "access") eqn:Hty; cbn.
    + apply String.eqb_eq in Hty. eexists. split; [reflexivity|].
      split; [|split; [left; eexists; reflexivity|split; reflexivity]].
      intros q. split.
      * intros H. injection H as <-. now split.
      * intros [H _]. now injection H as <-.
    + apply String.eqb_neq in Hty. eexists. split; [reflexivity|].
      split; [|split; [now right|split; reflexivity]].
      intros q. split; [discriminate|].
      intros [H Hq]. injection H as <-. contradiction.
  - assert (Hany : forall q : JWTPayload.t,
              (inl InvalidAccessToken : Exn + JWTPayload.t) = inr q <->
              JwtThrows name = JwtVerified q
              /\ JWTPayload.type q = "access"%string).
    { intros q. split; [discriminate|]. intros [H _]. discriminate H. }
    destruct (String.eqb name "TokenExpiredError"); cbn;
      [|destruct (String.eqb name "JsonWebTokenError"); cbn;
        [|destruct (String.eqb name "NotBeforeError"); cbn]];
      (eexists; split; [reflexivity|];
       split; [exact Hany|split; [now right|split; reflexivity]]).
Qed.

(** X11.  The two kinds of token never cross: a string the library
    verifies with the [access] kind is returned by [verifyAccessToken] and
    refused by [refreshAuth] with [Token is not a refresh token.] before
    any record is read, and a string verified with the [refresh] kind is
    refused by [verifyAccessToken]. *)
Theorem token_kinds_do_not_cross
  (o : Oracle) (env : Env) (w : World) (t : string) (opts : IToken.t)
  (p : JWTPayload.t) :
  jwt_verify o (cursor w) t = JwtVerified p ->
  (JWTPayload.type p = "access"%string ->
     run o (verifyAccessToken t) w = (tick w, inr p)
     /\ run o (refreshAuth env t opts) w = (tick w, inl NotARefreshToken))
  /\ (JWTPayload.type p = "refresh"%string ->
        run o (verifyAccessToken t) w = (tick w, inl InvalidAccessToken)).
Proof.
  intros Hv. split; intros Hty.
  - split.
    + unfold verifyAccessToken, jwt.verifyToken. cbn. rewrite Hv. cbn.
      rewrite Hty. reflexivity.
    + apply (refreshAuth_wrong_kind o env w t opts p Hv).
      rewrite Hty. reflexivity.
  - unfold verifyAccessToken, jwt.verifyToken. cbn. rewrite Hv. cbn.
    rewrite Hty. reflexivity.
Qed.

Lemma token_kinds_do_not_cross_witness :
  run Fixture.oracle
      (refreshAuth Fixture.env "access.b" Fixture.noContext)
      Fixture.freshWorld
  = (tick Fixture.freshWorld, inl NotARefreshToken)
  /\ run Fixture.oracle (verifyAccessToken "refresh.x") Fixture.freshWorld
     = (tick Fixture.freshWorld, inl InvalidAccessToken).
Proof.
  split.
  - apply (proj1 (token_kinds_do_not_cross Fixture.oracle Fixture.env
                    Fixture.freshWorld "access.b" Fixture.noContext
                    {| JWTPayload.sub := "user-1";
                       JWTPayload.type := "access";
                       JWTPayload.jti := None |} eq_refl)).
    reflexivity.
  - apply (proj2 (token_kinds_do_not_cross Fixture.oracle Fixture.env
                    Fixture.freshWorld "refresh.x" Fixture.noContext
                    Fixture.refreshPayload eq_refl)).
    reflexivity.
Defined.

(** X12.  [refreshAuth] reads only [deviceId], [ipAddress] and [userAgent]
    of the context it is given: two contexts that agree on these three
    give the same result and the same store, whatever their [userId],
    [deviceName], [rememberMe] and [metadata]. *)
Theorem refreshAuth_reads_only_three_context_fields
  (o : Oracle) (env : Env) (w : World) (tok : string)
  (opts opts' : IToken.t) :
  IToken.deviceId opts = IToken.deviceId opts' ->
  IToken.ipAddress opts = IToken.ipAddress opts' ->
  IToken.userAgent opts = IToken.userAgent opts' ->
  run o (refreshAuth env tok opts) w = run o (refreshAuth env tok opts') w.
Proof.
  intros H1 H2 H3.
  assert (Heq : refreshAuth env tok opts = refreshAuth env tok opts').
  { unfold refreshAuth. rewrite H1, H2, H3. reflexivity. }
  now rewrite Heq.
Qed.

Lemma refreshAuth_reads_only_three_context_fields_witness :
  run Fixture.oracle
      (refreshAuth Fixture.env "refresh.x" Fixture.noContext)
      Fixture.freshWorld
  = run Fixture.oracle
      (refreshAuth Fixture.env "refresh.x"
         {| IToken.userId := ""; IToken.deviceId := None;
            IToken.deviceName := Some "Unknown Device"%string;
            IToken.ipAddress := None; IToken.userAgent := None;
            IToken.rememberMe := Some true;
            IToken.metadata := Some JNull |})
      Fixture.freshWorld.
Proof.
  apply refreshAuth_reads_only_three_context_fields; reflexivity.
Defined.

(* ------------------------------------------------------------------ *)
(** ** Issuing, then rotating *)

Lemma find_app_none (p : Token -> bool) l l' :
  find p l = None -> find p (l ++ l') = find p l'.
Proof.
  induction l as [|x l IH]; simpl; [reflexivity|].
  destruct (p x); [discriminate|exact IH].
Qed.

(** X13.  The refresh token [generateLoginTokens] returns can be rotated
    at once.  If the codec verifies it as a refresh token, no earlier live
    record carries the same value and the clock has not passed the stored
    expiry, [refreshAuth] returns a new pair, marks the issued record
    consumed, and appends a successor that replaces the issued record,
    stays in its family, keeps its [rememberMe] and belongs to the token's
    subject. *)
Theorem issued_token_rotates
  (o : Oracle) (env : Env) (opts opts2 : IToken.t) (w w1 : World)
  (pair : TokenPair) (payload : JWTPayload.t) :
  run o (generateLoginTokens env opts) w = (w1, inr pair) ->
  verifies_as_refresh o w1 (Issued.token (refresh pair)) payload ->
  find (live_refresh_with (Issued.token (refresh pair))) (tokens w) = None ->
  checkInstant o w1 <= Issued.expiresAt (refresh pair) ->
  exists issued w2 pair2 d successor,
    tokens w1 = tokens w ++ [issued]
    /\ run o (refreshAuth env (Issued.token (refresh pair)) opts2) w1
       = (w2, inr pair2)
    /\ tokens w2 = update_where (has_id (id issued)) (data_rotated d)
                     (tokens w ++ [issued]) ++ [successor]
    /\ In (data_rotated d issued) (tokens w2)
    /\ replacesTokenId successor = Some (id issued)
    /\ tokenFamily successor = tokenFamily issued
    /\ rememberMe successor = rememberMe issued
    /\ userId successor = JWTPayload.sub payload
    /\ token successor = Issued.token (refresh pair2)
    /\ useCount successor = 0 /\ isRevoked successor = false.
Proof.
  intros Hissue Hv Hnone Hclock.
  rewrite generateLoginTokens_run in Hissue. cbv zeta in Hissue.
  injection Hissue as Hw1 Hpair. subst w1 pair.
  cbn [refresh Issued.token Issued.expiresAt tokens] in *.
  match goal with
  | |- context [tokens ?w ++ [?r]] => set (issued := r) in *
  end.
  match type of Hv with
  | verifies_as_refresh _ ?x _ _ => set (w1 := x) in *
  end.
  assert (Hm : matches_live w1 (token issued) issued).
  { unfold matches_live, w1. cbn [tokens].
    rewrite (find_app_none _ _ _ Hnone). cbn [find].
    unfold live_refresh_with at 1. cbn [token type isRevoked issued].
    now rewrite String.eqb_refl. }
  assert (He : expiredAt (checkInstant o w1) issued = false).
  { unfold expiredAt, opt_lt. cbn [expiresAt issued]. apply Z.ltb_ge.
    exact Hclock. }
  assert (Hu : useCount issued <= 0) by (cbn; lia).
  pose proof (refreshAuth_fresh_path o env w1 (token issued) opts2 payload
                issued Hv Hm He Hu) as Hrun. cbv zeta in Hrun.
  exists issued. eexists; eexists;
    exists (clock o (cursorAfterChecks w1 issued)); eexists.
  split; [reflexivity|]. split; [exact Hrun|].
  cbn [tokens refresh Issued.token]. split; [reflexivity|].
  split.
  { apply in_or_app. left. apply In_update_where. exists issued.
    split; [apply in_or_app; right; now left|].
    now rewrite (proj2 (has_id_true (id issued) issued) eq_refl). }
  repeat split.
Qed.

Lemma issued_token_rotates_witness :
  exists w1 pair w2 pair2,
    run Fixture.oracle
        (generateLoginTokens Fixture.env Scenario.rememberedLogin)
        emptyWorld = (w1, inr pair)
    /\ run Fixture.oracle
         (refreshAuth Fixture.env (Issued.token (refresh pair))
                      Fixture.noContext) w1 = (w2, inr pair2)
    /\ map (fun r => (id r, replacesTokenId r, rememberMe r, isRevoked r))
           (tokens w2)
       = [("id-g"%string, None, true, true);
          ("id-q"%string, Some "id-g"%string, true, false)].
Proof.
  destruct (issued_token_rotates Fixture.oracle Fixture.env
              Scenario.rememberedLogin Fixture.noContext emptyWorld
              (fst (run Fixture.oracle
                      (generateLoginTokens Fixture.env
                         Scenario.rememberedLogin) emptyWorld))
              {| access := {| Issued.token := "access.b";
                              Issued.expiresAt :=
                                Fixture.t0 + 7 + 3 * msPerDay |};
                 refresh := {| Issued.token := "refresh.d";
                               Issued.expiresAt :=
                                 Fixture.t0 + 5 + 30 * msPerDay |} |}
              Fixture.refreshPayload)
    as (issued & w2 & pair2 & d & successor & _ & Hrun & _).
  - reflexivity.
  - split; reflexivity.
  - reflexivity.
  - vm_compute. discriminate.
  - eexists; eexists; exists w2, pair2.
    split; [reflexivity|]. split; [exact Hrun|].
    vm_compute in Hrun. injection Hrun as Hw2 _. subst w2. reflexivity.
Defined.

(* ------------------------------------------------------------------ *)
(** ** Pagination *)

Lemma paginate_run o options filters w :
  let L := Z.min (Z.max 1 (or_default (PaginationOptions.limit options) 10))
                 (or_default (PaginationOptions.maxLimit options) 100) in
  let P := Z.max 1 (or_default (PaginationOptions.page options) 1) in
  let n := count_where filters (tokens w) in
  run o (paginate options filters) w =
  (w, inr {| data := firstn (Z.to_nat L)
                       (skipn (Z.to_nat ((P - 1) * L))
                              (matching_rows options filters w));
             pagination := {| total := n; page := P; limit := L;
                              totalPages := ceil_div n L;
                              hasNextPage := P <? ceil_div n L;
                              hasPrevPage := 1 <? P |} |}).
Proof.
  unfold paginate, matching_rows. cbn. destruct w as [tk c]. reflexivity.
Qed.

Lemma insert_by_length le x (l : list Token) :
  List.length (insert_by le x l) = S (List.length l).
Proof.
  induction l as [|y l IH]; simpl; [reflexivity|].
  destruct (le x y); simpl; [reflexivity|now rewrite IH].
Qed.

Lemma sort_by_length le (l : list Token) :
  List.length (sort_by le l) = List.length l.
Proof.
  unfold sort_by. induction l as [|y l IH]; simpl; [reflexivity|].
  now rewrite insert_by_length, IH.
Qed.

Lemma matching_rows_length options filters w :
  Z.of_nat (List.length (matching_rows options filters w))
  = count_where filters (tokens w).
Proof.
  unfold matching_rows, count_where.
  destruct (PaginationOptions.sort options); [rewrite sort_by_length|];
    reflexivity.
Qed.

Lemma In_matching_rows options filters w r :
  In r (matching_rows options filters w) <->
  In r (tokens w) /\ filters r = true.
Proof.
  unfold matching_rows.
  destruct (PaginationOptions.sort options);
    [rewrite In_sort_by|]; apply filter_In.
Qed.

Lemma ceil_div_spec a b :
  0 < b -> (ceil_div a b - 1) * b < a <= ceil_div a b * b.
Proof.
  intros Hb. unfold ceil_div.
  pose proof (Z.div_mod (- a) b ltac:(lia)) as Hdm.
  pose proof (Z.mod_pos_bound (- a) b Hb) as Hm.
  nia.
Qed.

(** X14.  With [maxLimit] at least 1 (it is 100 by default), [paginate]
    reads without writing and answers a page whose [limit] lies between 1
    and [maxLimit] and whose [page] is at least 1, whatever was asked; the
    page holds at most [limit] rows, each a stored row that satisfies the
    filter, and [total] counts all the stored rows that satisfy it. *)
Theorem paginate_clamps_and_bounds
  (o : Oracle) (options : PaginationOptions.t) (filters : Token -> bool)
  (w : World) :
  1 <= or_default (PaginationOptions.maxLimit options) 100 ->
  exists res,
    run o (paginate options filters) w = (w, inr res)
    /\ 1 <= limit (pagination res)
         <= or_default (PaginationOptions.maxLimit options) 100
    /\ 1 <= page (pagination res)
    /\ Z.of_nat (List.length (data res)) <= limit (pagination res)
    /\ (forall r, In r (data res) -> In r (tokens w) /\ filters r = true)
    /\ total (pagination res)
       = Z.of_nat (List.length (filter filters (tokens w))).
Proof.
  intros Hmax. eexists. split; [apply paginate_run|].
  cbn [data pagination limit page total].
  split; [lia|]. split; [lia|]. split.
  { pose proof (firstn_le_length
                  (Z.to_nat (Z.min (Z.max 1 (or_default
                     (PaginationOptions.limit options) 10))
                     (or_default (PaginationOptions.maxLimit options) 100)))
                  (skipn (Z.to_nat ((Z.max 1 (or_default
                     (PaginationOptions.page options) 1) - 1) *
                     Z.min (Z.max 1 (or_default
                       (PaginationOptions.limit options) 10))
                     (or_default (PaginationOptions.maxLimit options) 100)))
                     (matching_rows options filters w))). lia. }
  split; [|reflexivity].
  intros r Hin. apply (In_matching_rows options filters w r).
  apply (In_page (Some _) (Some _)) in Hin. exact Hin.
Qed.

Lemma paginate_clamps_and_bounds_witness :
  exists res,
    run Fixture.oracle
        (paginate {| PaginationOptions.limit := Some 5000;
                     PaginationOptions.page := Some (-3);
                     PaginationOptions.maxLimit := None;
                     PaginationOptions.sort := None |}
                  (fun _ => true)) Fixture.familyWorld
    = (Fixture.familyWorld, inr res)
    /\ limit (pagination res) = 100 /\ page (pagination res) = 1
    /\ total (pagination res) = 4.
Proof.
  destruct (paginate_clamps_and_bounds Fixture.oracle
              {| PaginationOptions.limit := Some 5000;
                 PaginationOptions.page := Some (-3);
                 PaginationOptions.maxLimit := None;
                 PaginationOptions.sort := None |}
              (fun _ => true) Fixture.familyWorld)
    as (res & Hrun & _).
  - vm_compute. discriminate.
  - exists res. split; [exact Hrun|].
    vm_compute in Hrun. injection Hrun as Hres. subst res.
    repeat split.
Defined.

(** X15.  With [maxLimit] at least 1, the page counters of [paginate]
    agree with the rows: [totalPages] is the least number of pages of
    [limit] rows that hold [total] rows, [hasNextPage] is true exactly
    when rows remain after this page, [hasPrevPage] exactly when the page
    is not the first, and a page past the last one is empty rather than an
    error. *)
Theorem paginate_counters_agree
  (o : Oracle) (options : PaginationOptions.t) (filters : Token -> bool)
  (w : World) :
  1 <= or_default (PaginationOptions.maxLimit options) 100 ->
  exists res,
    run o (paginate options filters) w = (w, inr res)
    /\ (totalPages (pagination res) - 1) * limit (pagination res)
         < total (pagination res)
         <= totalPages (pagination res) * limit (pagination res)
    /\ (hasNextPage (pagination res) = true <->
          page (pagination res) * limit (pagination res)
            < total (pagination res))
    /\ (hasPrevPage (pagination res) = true <-> 1 < page (pagination res))
    /\ (totalPages (pagination res) < page (pagination res) ->
          data res = []).
Proof.
  intros Hmax. eexists. split; [apply paginate_run|].
  cbn [data pagination limit page total totalPages hasNextPage hasPrevPage].
  set (L := Z.min (Z.max 1 (or_default (PaginationOptions.limit options) 10))
                  (or_default (PaginationOptions.maxLimit options) 100)).
  set (P := Z.max 1 (or_default (PaginationOptions.page options) 1)).
  set (n := count_where filters (tokens w)).
  assert (HL : 0 < L) by (unfold L; lia).
  pose proof (ceil_div_spec n L HL) as Hc.
  split; [exact Hc|]. split; [rewrite Z.ltb_lt; nia|].
  split; [apply Z.ltb_lt|].
  intros Hpast.
  rewrite skipn_all2; [now rewrite firstn_nil|].
  apply Nat2Z.inj_le. rewrite matching_rows_length. fold n.
  rewrite Z2Nat.id; nia.
Qed.

Lemma paginate_counters_agree_witness :
  exists res,
    run Fixture.oracle
        (paginate {| PaginationOptions.limit := Some 3;
                     PaginationOptions.page := Some 1;
                     PaginationOptions.maxLimit := None;
                     PaginationOptions.sort := None |}
                  (fun _ => true)) Fixture.familyWorld
    = (Fixture.familyWorld, inr res)
    /\ totalPages (pagination res) = 2
    /\ hasNextPage (pagination res) = true
    /\ List.length (data res) = 3%nat.
Proof.
  destruct (paginate_counters_agree Fixture.oracle
              {| PaginationOptions.limit := Some 3;
                 PaginationOptions.page := Some 1;
                 PaginationOptions.maxLimit := None;
                 PaginationOptions.sort := None |}
              (fun _ => true) Fixture.familyWorld)
    as (res & Hrun & _).
  - vm_compute. discriminate.
  - exists res. split; [exact Hrun|].
    vm_compute in Hrun. injection Hrun as Hres. subst res.
    repeat split.
Defined.

Lemma firstn_plus {A} (a b : nat) (l : list A) :
  firstn (a + b) l = firstn a l ++ firstn b (skipn a l).
Proof.
  revert l. induction a as [|a IH]; intros l; [reflexivity|].
  destruct l as [|x l]; simpl; [now rewrite firstn_nil|].
  now rewrite IH.
Qed.

Lemma concat_pages {A} (n : nat) (l : list A) (k : nat) :
  List.concat (map (fun i => firstn n (skipn ((i - 1) * n) l)) (seq 1 k))
  = firstn (k * n) l.
Proof.
  induction k as [|k IH]; [reflexivity|].
  rewrite seq_S, map_app, concat_app, IH. simpl.
  rewrite app_nil_r, Nat.sub_0_r.
  rewrite (Nat.add_comm n (k * n)). symmetry. apply firstn_plus.
Qed.

Lemma page_data_eq o options filters w (i : nat) :
  (1 <= i)%nat ->
  let L := Z.min (Z.max 1 (or_default (PaginationOptions.limit options) 10))
                 (or_default (PaginationOptions.maxLimit options) 100) in
  0 < L ->
  page_data o options filters w (Z.of_nat i)
  = firstn (Z.to_nat L)
      (skipn ((i - 1) * Z.to_nat L) (matching_rows options filters w)).
Proof.
  intros Hi L HL. unfold page_data. rewrite paginate_run.
  cbn [snd data PaginationOptions.limit PaginationOptions.page
       PaginationOptions.maxLimit with_page or_default].
  fold L.
  replace (matching_rows (with_page options (Z.of_nat i)) filters w)
    with (matching_rows options filters w) by reflexivity.
  replace (Z.to_nat ((Z.max 1 (Z.of_nat i) - 1) * L))
    with ((i - 1) * Z.to_nat L)%nat; [reflexivity|].
  rewrite Z.max_r by lia.
  rewrite Z2Nat.inj_mul by lia. f_equal. lia.
Qed.

(** X16.  With [maxLimit] at least 1, walking the pages 1 to [totalPages]
    under fixed limit, order and filter, over an unchanged store, yields
    every matching row exactly once, in order: the pages, one after the
    other, are the list of matching rows. *)
Theorem pages_cover_every_row
  (o : Oracle) (options : PaginationOptions.t) (filters : Token -> bool)
  (w : World) :
  1 <= or_default (PaginationOptions.maxLimit options) 100 ->
  List.concat (map (fun i => page_data o options filters w (Z.of_nat i))
              (seq 1 (Z.to_nat (pages_total o options filters w))))
  = matching_rows options filters w.
Proof.
  intros Hmax.
  set (L := Z.min (Z.max 1 (or_default (PaginationOptions.limit options) 10))
                  (or_default (PaginationOptions.maxLimit options) 100)).
  assert (HL : 0 < L) by (unfold L; lia).
  unfold pages_total. rewrite paginate_run.
  cbn [snd pagination totalPages]. fold L.
  set (n := count_where filters (tokens w)).
  rewrite (map_ext_in _
             (fun i => firstn (Z.to_nat L)
                         (skipn ((i - 1) * Z.to_nat L)
                                (matching_rows options filters w)))).
  2:{ intros i Hi. apply in_seq in Hi.
      apply page_data_eq; [lia|exact HL]. }
  rewrite concat_pages. apply firstn_all2.
  pose proof (ceil_div_spec n L HL) as Hc.
  pose proof (matching_rows_length options filters w) as Hlen. fold n in Hlen.
  apply Nat2Z.inj_le. rewrite Hlen, Nat2Z.inj_mul.
  assert (0 <= n) by (unfold n, count_where; lia).
  rewrite !Z2Nat.id by nia. lia.
Qed.

Lemma pages_cover_every_row_witness :
  map (fun i => map id
         (page_data Fixture.oracle
            {| PaginationOptions.limit := Some 3;
               PaginationOptions.page := None;
               PaginationOptions.maxLimit := None;
               PaginationOptions.sort := None |}
            (fun _ => true) Fixture.familyWorld (Z.of_nat i)))
      [1%nat; 2%nat]
  = [["id-0"%string; "id-1"%string; "id-2"%string]; ["id-9"%string]]
  /\ List.concat (map (fun i => page_data Fixture.oracle
                    {| PaginationOptions.limit := Some 3;
                       PaginationOptions.page := None;
                       PaginationOptions.maxLimit := None;
                       PaginationOptions.sort := None |}
                    (fun _ => true) Fixture.familyWorld (Z.of_nat i))
                 [1%nat; 2%nat])
     = tokens Fixture.familyWorld.
Proof.
  split; [reflexivity|].
  apply (pages_cover_every_row Fixture.oracle
           {| PaginationOptions.limit := Some 3;
              PaginationOptions.page := None;
              PaginationOptions.maxLimit := None;
              PaginationOptions.sort := None |}
           (fun _ => true) Fixture.familyWorld).
  vm_compute. discriminate.
Defined.

(** X17.  Whatever the query holds, [parsePaginationParams] answers a page
    of at least 1 and a limit between 1 and 100, which [paginate] then
    uses as they are.  A limit that parses to 0, or does not parse, becomes
    10; a negative one becomes 1; one above 100 becomes 100. *)
Theorem parsePaginationParams_in_range
  (o : Oracle) (parseInt : option string -> option Z) (query : RawQuery.t)
  (filters : Token -> bool) (w : World) :
  exists p l res,
    PaginationOptions.page (parsePaginationParams parseInt query) = Some p
    /\ PaginationOptions.limit (parsePaginationParams parseInt query) = Some l
    /\ 1 <= p /\ 1 <= l <= 100
    /\ run o (paginate (parsePaginationParams parseInt query) filters) w
       = (w, inr res)
    /\ page (pagination res) = p /\ limit (pagination res) = l
    /\ (parseInt (RawQuery.limit query) = None -> l = 10)
    /\ (parseInt (RawQuery.limit query) = Some 0 -> l = 10)
    /\ (forall v, parseInt (RawQuery.limit query) = Some v -> v < 0 -> l = 1)
    /\ (forall v, parseInt (RawQuery.limit query) = Some v -> 100 < v ->
          l = 100)
    /\ (forall v, parseInt (RawQuery.page query) = Some v -> v <= 0 -> p = 1).
Proof.
  eexists; eexists; eexists.
  split; [reflexivity|]. split; [reflexivity|].
  split; [lia|]. split; [lia|].
  split; [apply paginate_run|].
  cbn [pagination page limit parsePaginationParams or_default
       PaginationOptions.page PaginationOptions.limit
       PaginationOptions.maxLimit].
  split; [lia|]. split; [lia|].
  unfold num_or.
  split; [intros ->; reflexivity|].
  split; [intros ->; reflexivity|].
  split; [intros v -> Hv; destruct (Z.eqb_spec v 0); lia|].
  split; intros v -> Hv; destruct (Z.eqb_spec v 0); lia.
Qed.

Lemma parsePaginationParams_in_range_witness :
  PaginationOptions.limit
    (parsePaginationParams Scenario.parseInt
       {| RawQuery.page := Some "-5"%string;
          RawQuery.limit := Some "0"%string |}) = Some 10
  /\ PaginationOptions.page
       (parsePaginationParams Scenario.parseInt
          {| RawQuery.page := Some "-5"%string;
             RawQuery.limit := Some "0"%string |}) = Some 1.
Proof.
  destruct (parsePaginationParams_in_range Fixture.oracle Scenario.parseInt
              {| RawQuery.page := Some "-5"%string;
                 RawQuery.limit := Some "0"%string |}
              (fun _ => true) Fixture.freshWorld)
    as (p & l & res & Hp & Hl & _ & _ & _ & _ & _ & _ & H0 & _ & _ & Hneg).
  rewrite Hl, Hp, (H0 eq_refl), (Hneg (-5) eq_refl ltac:(lia)).
  split; reflexivity.
Defined.

(** X18.  [getOffset] is never negative, whatever page and limit it is
    given, and for a limit within [paginate]'s bounds it is the number of
    rows [paginate] skips: the page [paginate] answers is the [limit] rows
    that follow the first [getOffset page limit] matching rows. *)
Theorem getOffset_is_paginate_skip
  (o : Oracle) (filters : Token -> bool) (w : World) (pg lim : Z)
  (sort : option (Token -> Token -> bool)) :
  0 <= getOffset pg lim
  /\ (1 <= lim <= 100 ->
      getOffset pg lim = (Z.max 1 pg - 1) * lim
      /\ exists res,
           run o (paginate {| PaginationOptions.limit := Some lim;
                              PaginationOptions.page := Some pg;
                              PaginationOptions.maxLimit := None;
                              PaginationOptions.sort := sort |} filters) w
           = (w, inr res)
           /\ data res
              = firstn (Z.to_nat lim)
                  (skipn (Z.to_nat (getOffset pg lim))
                     (matching_rows {| PaginationOptions.limit := Some lim;
                                       PaginationOptions.page := Some pg;
                                       PaginationOptions.maxLimit := None;
                                       PaginationOptions.sort := sort |}
                                    filters w))).
Proof.
  split; [unfold getOffset; lia|].
  intros Hlim.
  assert (Hoff : getOffset pg lim = (Z.max 1 pg - 1) * lim).
  { unfold getOffset. replace (Z.max 1 lim) with lim by lia. nia. }
  split; [exact Hoff|].
  eexists. split; [apply paginate_run|].
  cbn [data or_default PaginationOptions.limit PaginationOptions.page
       PaginationOptions.maxLimit].
  rewrite Hoff.
  replace (Z.min (Z.max 1 lim) 100) with lim by lia.
  reflexivity.
Qed.

Lemma getOffset_is_paginate_skip_witness :
  getOffset 2 3 = 3 /\ 0 <= getOffset (-7) (-4)
  /\ exists res,
       run Fixture.oracle
           (paginate {| PaginationOptions.limit := Some 3;
                        PaginationOptions.page := Some 2;
                        PaginationOptions.maxLimit := None;
                        PaginationOptions.sort := None |} (fun _ => true))
           Fixture.familyWorld = (Fixture.familyWorld, inr res)
       /\ map id (data res) = ["id-9"%string].
Proof.
  split; [reflexivity|].
  split; [exact (proj1 (getOffset_is_paginate_skip Fixture.oracle
                          (fun _ => true) Fixture.familyWorld (-7) (-4) None))|].
  destruct (proj2 (getOffset_is_paginate_skip Fixture.oracle (fun _ => true)
                     Fixture.familyWorld 2 3 None)) as (_ & res & Hrun & Hdata).
  - lia.
  - exists res. split; [exact Hrun|]. rewrite Hdata. reflexivity.
Defined.

(* ------------------------------------------------------------------ *)
(** ** The response envelope and the cookies *)



(** X20.  The cookies set from the pair [generateLoginTokens] returns
    describe the record it stored: the [refreshToken] cookie carries the
    stored token value, expires at the stored [expiresAt] and is scoped to
    the refresh endpoint; the [accessToken] cookie carries the access token
    with its expiry and has no path; both are [httpOnly], [secure] exactly
    when [DEBUG] is off, and [sameSite] is [lax] when [DEBUG] is on and
    [none] otherwise.  Exactly these two cookies are added, after the
    cookies already on the response. *)
Theorem login_cookies_match_stored_record
  (o : Oracle) (env : Env) (opts : IToken.t) (w : World) (DEBUG : bool)
  (res : list Cookie) :
  exists w' pair row ca cr,
    run o (generateLoginTokens env opts) w = (w', inr pair)
    /\ tokens w' = tokens w ++ [row]
    /\ setAuthCookies DEBUG res pair = res ++ [ca; cr]
    /\ name ca = "accessToken"%string /\ name cr = "refreshToken"%string
    /\ value cr = token row
    /\ value ca = Issued.token (access pair)
    /\ expires (options cr) = expiresAt row
    /\ expires (options ca) = Some (Issued.expiresAt (access pair))
    /\ path (options cr) = Some "/api/v1/auth/refresh-tokens"%string
    /\ path (options ca) = None
    /\ httpOnly (options ca) = true /\ httpOnly (options cr) = true
    /\ secure (options ca) = negb DEBUG /\ secure (options cr) = negb DEBUG
    /\ sameSite (options ca) = (if DEBUG then "lax" else "none")%string
    /\ sameSite (options cr) = (if DEBUG then "lax" else "none")%string
    /\ (sameSite (options ca) = "lax"%string <-> DEBUG = true)
    /\ (sameSite (options cr) = "lax"%string <-> DEBUG = true).
Proof.
  eexists; eexists; eexists; eexists; eexists.
  split; [apply generateLoginTokens_run|].
  cbn [tokens]. split; [reflexivity|].
  split; [reflexivity|].
  cbn. repeat split; try discriminate;
    try (destruct DEBUG; [reflexivity|discriminate]);
    try (now intros ->).
Qed.

Lemma login_cookies_match_stored_record_witness :
  map (fun c => (name c, value c, sameSite (options c), secure (options c),
                 expires (options c), path (options c)))
      (setAuthCookies false []
         {| access := {| Issued.token := "access.b";
                         Issued.expiresAt := 1700259200007 |};
            refresh := {| Issued.token := "refresh.d";
                          Issued.expiresAt := 1702592000005 |} |})
  = [("accessToken"%string, "access.b"%string, "none"%string, true,
      Some 1700259200007, None);
     ("refreshToken"%string, "refresh.d"%string, "none"%string, true,
      Some 1702592000005, Some "/api/v1/auth/refresh-tokens"%string)].
Proof.
  destruct (login_cookies_match_stored_record Fixture.oracle Fixture.env
              Scenario.rememberedLogin emptyWorld false [])
    as (w' & pair & row & ca & cr & Hrun & _ & Hset & _).
  vm_compute in Hrun. injection Hrun as _ Hp. subst pair.
  reflexivity.
Defined.

(* ------------------------------------------------------------------ *)
(** ** The sweep and records without [revokedAt] *)

(** X21.  The sweep removes a record that has no [revokedAt] only by
    expiry.  So a live record is never swept before its [expiresAt], and a
    record consumed by rotation, which gets a reason but no [revokedAt],
    stays until its own [expiresAt] passes, however long ago it was
    rotated. *)
Theorem sweep_keeps_unstamped_until_expiry
  (o : Oracle) (w : World) (r : Token) :
  In r (tokens w) ->
  revokedAt r = None ->
  exists w' n,
    run o cleanupExpiredTokens w = (w', inr n)
    /\ (In r (tokens w') <-> expiredAt (clock o (S (cursor w))) r = false).
Proof.
  intros Hin Hnone. eexists; eexists.
  split; [apply cleanupExpiredTokens_run|]. cbn [tokens].
  rewrite In_delete_where. unfold sweepable, expiredAt.
  rewrite Hnone. cbn [opt_lt]. rewrite andb_false_r, orb_false_r.
  tauto.
Qed.

Lemma sweep_keeps_unstamped_until_expiry_witness :
  exists w1 pair w2 n,
    run Fixture.oracle
        (refreshAuth Fixture.env "refresh.x" Fixture.noContext)
        Fixture.freshWorld = (w1, inr pair)
    /\ run {| clock := fun k => Fixture.t0 + 6 * msPerDay + Z.of_nat k;
              randomBytesHex := randomBytesHex Fixture.oracle;
              jwt_sign := jwt_sign Fixture.oracle;
              jwt_verify := jwt_verify Fixture.oracle;
              strToDate := strToDate Fixture.oracle;
              db_uuid := db_uuid Fixture.oracle;
              db_now := db_now Fixture.oracle;
              userEmail := userEmail Fixture.oracle |}
           cleanupExpiredTokens w1 = (w2, inr n)
    /\ map id (tokens w2) = map id (tokens w1).
Proof.
  eexists; eexists.
  destruct (sweep_keeps_unstamped_until_expiry
              {| clock := fun k => Fixture.t0 + 6 * msPerDay + Z.of_nat k;
                 randomBytesHex := randomBytesHex Fixture.oracle;
                 jwt_sign := jwt_sign Fixture.oracle;
                 jwt_verify := jwt_verify Fixture.oracle;
                 strToDate := strToDate Fixture.oracle;
                 db_uuid := db_uuid Fixture.oracle;
                 db_now := db_now Fixture.oracle;
                 userEmail := userEmail Fixture.oracle |}
              (fst (run Fixture.oracle
                      (refreshAuth Fixture.env "refresh.x" Fixture.noContext)
                      Fixture.freshWorld))
              (data_rotated (Fixture.t0 + 2)
                 (Fixture.row "id-1" "refresh.x" Fixture.fam 0
                    (Fixture.t0 + 7 * msPerDay))))
    as (w2 & n & Hrun & _).
  - left. reflexivity.
  - reflexivity.
  - exists w2, n. split; [reflexivity|]. split; [exact Hrun|].
    vm_compute in Hrun. injection Hrun as Hw2 _. subst w2. reflexivity.
Defined.

(* ------------------------------------------------------------------ *)
(** ** Revocation as the session listing sees it *)

Lemma listed_rows o u w :
  exists rows,
    run o (listUserSessions_selected u) w
    = (tick w, inr (map select_summary rows))
    /\ forall r, In r rows <->
         In r (tokens w) /\ live_refresh_of u r = true
         /\ opt_gt (expiresAt r) (clock o (cursor w)) = true.
Proof.
  exists (sort_by lastUsedAt_desc
            (filter (fun r => live_refresh_of u r
                              && opt_gt (expiresAt r) (clock o (cursor w)))
                    (tokens w))).
  split; [reflexivity|].
  intros r. rewrite In_sort_by, filter_In, andb_true_iff. tauto.
Qed.

Lemma listed_ids o u w summaries s :
  run o (listUserSessions_selected u) w = (tick w, inr summaries) ->
  In s (map part_010.id summaries) ->
  exists r, In r (tokens w) /\ id r = s /\ live_refresh_of u r = true.
Proof.
  intros Hrun Hin. destruct (listed_rows o u w) as (rows & Hrun' & Hrows).
  rewrite Hrun' in Hrun. injection Hrun as <-.
  rewrite map_map in Hin. apply in_map_iff in Hin as (r & Hid & Hr).
  apply Hrows in Hr as (Hr & Hl & _). exists r. now repeat split.
Qed.

(** X22.  Once [revokeSession] has run for a user and a session id,
    whether it returned or threw, the listing of that user's sessions (the
    one with the explicit [select]) does not show that id. *)
Theorem revoked_session_is_not_listed
  (o : Oracle) (u sessionId : string) (w : World) :
  exists w1 outcome summaries,
    run o (revokeSession u sessionId) w = (w1, outcome)
    /\ run o (listUserSessions_selected u) w1 = (tick w1, inr summaries)
    /\ ~ In sessionId (map part_010.id summaries).
Proof.
  destruct (run o (revokeSession u sessionId) w) as [w1 outcome] eqn:Hrev.
  destruct (listed_rows o u w1) as (rows & Hlist & _).
  exists w1, outcome, (map select_summary rows).
  split; [reflexivity|]. split; [exact Hlist|].
  intros Hin.
  destruct (listed_ids o u w1 _ sessionId Hlist Hin) as (r & Hr & Hid & Hl).
  apply live_refresh_of_spec in Hl as (Hu & Hty & Hrevoked).
  unfold revokeSession in Hrev. cbn in Hrev.
  change (fun r : Token =>
            String.eqb (id r) sessionId && String.eqb (userId r) u
            && tokenType.eqb (type r) tokenType.refresh)
    with (owned_session u sessionId) in Hrev.
  destruct (find (owned_session u sessionId) (tokens w)) as [r0|] eqn:Hf;
    cbn in Hrev.
  - destruct (existsb (has_id sessionId) (tokens w)); cbn in Hrev;
      injection Hrev as <- _; cbn [tokens with_tokens] in Hr;
      apply In_update_where in Hr as (r1 & _ & ->);
      (destruct (has_id sessionId r1) eqn:Hh;
       [discriminate Hrevoked
       |apply has_id_false in Hh; contradiction]).
  - injection Hrev as <- _.
    pose proof (find_none _ _ Hf r Hr) as Hno.
    unfold owned_session in Hno.
    rewrite Hid, Hu, Hty, !String.eqb_refl in Hno. discriminate.
Qed.

(** X23.  After [revokeAllForUser], the listing of that user's sessions
    (the one with the explicit [select]) is empty. *)
Theorem revokeAll_empties_the_listing
  (o : Oracle) (u : string) (reason : option string) (w : World) :
  exists w1,
    run o (revokeAllForUser u reason) w = (w1, inr true)
    /\ run o (listUserSessions_selected u) w1 = (tick w1, inr []).
Proof.
  eexists. split; [apply revokeAllForUser_run|].
  match goal with |- run _ _ ?x = _ => set (w1 := x) end.
  destruct (listed_rows o u w1) as (rows & Hlist & Hrows).
  rewrite Hlist. destruct rows as [|r rows]; [reflexivity|].
  exfalso. destruct (proj1 (Hrows r) (or_introl eq_refl)) as (Hr & Hl & _).
  unfold w1 in Hr. cbn [tokens] in Hr.
  apply In_update_where in Hr as (r0 & _ & ->).
  destruct (live_refresh_of u r0) eqn:Hl0; [|congruence].
  apply live_refresh_of_spec in Hl as (_ & _ & H). discriminate H.
Qed.

(* ------------------------------------------------------------------ *)
(** ** What every history of calls keeps *)

Lemma forallb_update_where (P p : Token -> bool) f l :
  (forall r, In r l -> P r = true -> p r = true -> P (f r) = true) ->
  forallb P l = true -> forallb P (update_where p f l) = true.
Proof.
  rewrite !forallb_forall. intros Hf H r Hin.
  apply In_update_where in Hin as (r0 & Hin0 & ->).
  destruct (p r0) eqn:Hp; [apply Hf; auto|auto].
Qed.

Lemma forallb_delete_where (P p : Token -> bool) l :
  forallb P l = true -> forallb P (delete_where p l) = true.
Proof.
  rewrite !forallb_forall. intros H r Hin.
  apply In_delete_where in Hin as [Hin _]. auto.
Qed.

Lemma pristine_revoked d reason r :
  pristineIfLive (data_revoked d reason r) = true.
Proof. reflexivity. Qed.

Lemma pristine_rotated d r : pristineIfLive (data_rotated d r) = true.
Proof. reflexivity. Qed.

Lemma pristine_successor p doc r :
  successorOf p doc r -> pristineIfLive r = true /\ wellFormedRow r = true.
Proof.
  intros (Hty & _ & Hu & Hrev & Hat & Hre & Hl & (e & He) & _).
  unfold pristineIfLive, wellFormedRow.
  now rewrite Hty, Hu, Hrev, Hat, Hre, Hl, He.
Qed.

Lemma revokeSession_tokens o u s w :
  tokens (fst (run o (revokeSession u s) w)) = tokens w
  \/ tokens (fst (run o (revokeSession u s) w))
     = update_where (has_id s)
         (data_revoked (clock o (cursor w)) "Revoked by user") (tokens w).
Proof.
  unfold revokeSession. cbn.
  destruct (find _ (tokens w)); cbn; [|now left].
  destruct (existsb (has_id s) (tokens w)); cbn; now right.
Qed.

Lemma after_keeps_live_pristine o env c w :
  livePristine w -> livePristine (after o env c w).
Proof.
  unfold livePristine. intros H. destruct c as [opts|t opts|t reason|u reason|u s|options filters|]; cbn [after].
  - rewrite generateLoginTokens_run. cbn [fst tokens].
    rewrite forallb_app, H. reflexivity.
  - pose proof (refreshAuth_outcome o env w t opts) as Hout.
    destruct (run o (refreshAuth env t opts) w) as [w' r]. cbn [fst].
    inversion Hout; subst; try exact H;
      match goal with Htk : tokens w' = _ |- _ => rewrite Htk end.
    + now apply forallb_delete_where.
    + apply forallb_update_where; [|exact H].
      intros; apply pristine_revoked.
    + exact H.
    + rewrite forallb_app. apply andb_true_intro. split.
      * apply forallb_update_where; [|exact H].
        intros; apply pristine_rotated.
      * match goal with Hs : successorOf _ _ _ |- _ =>
          cbn; rewrite (proj1 (pristine_successor _ _ _ Hs)) end.
        reflexivity.
  - rewrite revokeRefreshToken_run. cbn [fst tokens].
    apply forallb_update_where; [|exact H]. intros; apply pristine_revoked.
  - rewrite revokeAllForUser_run. cbn [fst tokens].
    apply forallb_update_where; [|exact H]. intros; apply pristine_revoked.
  - destruct (revokeSession_tokens o u s w) as [-> | ->]; [exact H|].
    apply forallb_update_where; [|exact H]. intros; apply pristine_revoked.
  - unfold listUserSessions. rewrite paginate_run. exact H.
  - rewrite cleanupExpiredTokens_run. cbn [fst tokens].
    now apply forallb_delete_where.
Qed.

Lemma afterAll_keeps_live_pristine o env calls w :
  livePristine w -> livePristine (afterAll o env calls w).
Proof.
  revert w. induction calls as [|c calls IH]; intros w H; [exact H|].
  cbn. apply IH. now apply after_keeps_live_pristine.
Qed.

(** X24.  Starting from an empty store, after any sequence of calls of the
    service, each run to completion, [refreshAuth] never answers
    [ReuseDetected], and every live record has [useCount = 0]: the
    rotation that raises the count revokes the record in the same
    update. *)
Theorem reuse_is_never_detected_in_a_history
  (o : Oracle) (env : Env) (calls : list Call) (tok : string)
  (opts : IToken.t) :
  snd (run o (refreshAuth env tok opts) (afterAll o env calls emptyWorld))
  <> inl ReuseDetected
  /\ forall r, In r (tokens (afterAll o env calls emptyWorld)) ->
       isRevoked r = false -> useCount r = 0.
Proof.
  assert (Hinv : livePristine (afterAll o env calls emptyWorld))
    by (apply afterAll_keeps_live_pristine; reflexivity).
  set (w := afterAll o env calls emptyWorld) in *.
  assert (Hlive : forall r, In r (tokens w) -> isRevoked r = false ->
                            useCount r = 0).
  { intros r Hin Hrev. unfold livePristine in Hinv.
    rewrite forallb_forall in Hinv. specialize (Hinv r Hin).
    unfold pristineIfLive in Hinv. rewrite Hrev in Hinv. cbn in Hinv.
    apply andb_prop in Hinv as [Hu _]. now apply Z.eqb_eq. }
  split; [|exact Hlive].
  pose proof (refreshAuth_outcome o env w tok opts) as Hout.
  destruct (run o (refreshAuth env tok opts) w) as [w' r]. cbn [snd].
  assert (Hdoc : forall doc, matches_live w tok doc -> 0 < useCount doc ->
                             False).
  { intros doc Hm Hu. apply find_some in Hm as [Hin Hl].
    unfold live_refresh_with in Hl. apply andb_prop in Hl as [_ Hl].
    apply negb_true_iff in Hl. rewrite (Hlive doc Hin Hl) in Hu. lia. }
  inversion Hout; subst; try discriminate; intros _; eauto.
Qed.

Lemma exec_cursor_mono o X (op : Op X) w :
  (cursor w <= cursor (snd (exec o op w)))%nat.
Proof. destruct op; cbn; lia. Qed.

Lemma run_cursor_mono {A} o (p : Prog A) w :
  (cursor w <= cursor (fst (run o p w)))%nat.
Proof.
  revert w. induction p as [a|e|X op k IH]; intros w; cbn; try lia.
  pose proof (exec_cursor_mono o X op w) as H1.
  destruct (exec o op w) as [x w1]. cbn in H1.
  specialize (IH x w1). lia.
Qed.

Lemma after_cursor_mono o env c w : (cursor w <= cursor (after o env c w))%nat.
Proof. destruct c; cbn [after]; apply run_cursor_mono. Qed.

Lemma rowOK_revoked d reason r :
  rowOK r = true -> rowOK (data_revoked d reason r) = true.
Proof.
  unfold rowOK, wellFormedRow, pristineIfLive. cbn.
  intros H. apply andb_prop in H as [H _].
  apply andb_prop in H as [H Hu]. rewrite H.
  destruct (useCount r =? 0), (useCount r =? 1); cbn in *;
    try reflexivity; discriminate.
Qed.

Lemma rowOK_rotated d r :
  rowOK r = true -> isRevoked r = false ->
  rowOK (data_rotated d r) = true.
Proof.
  unfold rowOK, wellFormedRow, pristineIfLive. cbn.
  intros H Hrev. rewrite Hrev in H. cbn in H.
  apply andb_prop in H as [H Hp]. apply andb_prop in H as [H _].
  apply andb_prop in Hp as [Hu _]. apply Z.eqb_eq in Hu.
  rewrite H, Hu. reflexivity.
Qed.

Lemma map_id_update_where p f (l : list Token) :
  (forall r, id (f r) = id r) ->
  map id (update_where p f l) = map id l.
Proof.
  intros Hf. unfold update_where. rewrite map_map. apply map_ext.
  intros r. destruct (p r); [apply Hf|reflexivity].
Qed.

Lemma NoDup_map_delete_where p (l : list Token) :
  NoDup (map id l) -> NoDup (map id (delete_where p l)).
Proof.
  unfold delete_where. induction l as [|x l IH]; cbn; intros H; [exact H|].
  inversion H as [|? ? Hnot Hnd]; subst.
  destruct (p x); cbn; [now apply IH|].
  constructor; [|now apply IH].
  intros Hin. apply Hnot. apply in_map_iff in Hin as (y & Hy & Hin).
  apply filter_In in Hin as [Hin _]. rewrite <- Hy. now apply in_map.
Qed.

Lemma NoDup_snoc {A} (l : list A) (a : A) :
  NoDup l -> ~ In a l -> NoDup (l ++ [a]).
Proof.
  induction l as [|x l IH]; cbn; intros Hnd Hnot.
  - constructor; [intros []|constructor].
  - inversion Hnd as [|? ? Hx Hl]; subst. constructor.
    + intros Hin. apply in_app_or in Hin as [Hin|[Hin|[]]];
        [contradiction|]. apply Hnot. now left.
    + apply IH; [exact Hl|]. intros Hin. apply Hnot. now right.
Qed.

Section StoreInvariant.
Variable o : Oracle.
Hypothesis uuid_inj : forall n m, db_uuid o n = db_uuid o m -> n = m.

Lemma storeInv_update w w' p f :
  storeInv o w ->
  tokens w' = update_where p f (tokens w) ->
  (cursor w <= cursor w')%nat ->
  (forall r, id (f r) = id r) ->
  (forall r, In r (tokens w) -> rowOK r = true -> p r = true ->
             rowOK (f r) = true) ->
  storeInv o w'.
Proof.
  intros (HA & HB & HC) Htk Hc Hid Hf. unfold storeInv. rewrite Htk.
  split; [now apply forallb_update_where|].
  split; [now rewrite map_id_update_where|].
  intros r Hin. apply In_update_where in Hin as (r0 & Hin0 & ->).
  destruct (HC r0 Hin0) as (k & Hk & Hr0).
  exists k. split; [lia|]. destruct (p r0); [now rewrite Hid|exact Hr0].
Qed.

Lemma storeInv_delete w w' p :
  storeInv o w ->
  tokens w' = delete_where p (tokens w) ->
  (cursor w <= cursor w')%nat ->
  storeInv o w'.
Proof.
  intros (HA & HB & HC) Htk Hc. unfold storeInv. rewrite Htk.
  split; [now apply forallb_delete_where|].
  split; [now apply NoDup_map_delete_where|].
  intros r Hin. apply In_delete_where in Hin as [Hin _].
  destruct (HC r Hin) as (k & Hk & Hr). exists k. split; [lia|exact Hr].
Qed.

Lemma storeInv_same w w' :
  storeInv o w -> tokens w' = tokens w -> (cursor w <= cursor w')%nat ->
  storeInv o w'.
Proof.
  intros (HA & HB & HC) Htk Hc. unfold storeInv. rewrite Htk.
  split; [exact HA|]. split; [exact HB|].
  intros r Hin. destruct (HC r Hin) as (k & Hk & Hr).
  exists k. split; [lia|exact Hr].
Qed.

Lemma storeInv_append w w' r k :
  storeInv o w ->
  tokens w' = tokens w ++ [r] ->
  rowOK r = true ->
  id r = db_uuid o k -> (cursor w <= k < cursor w')%nat ->
  storeInv o w'.
Proof.
  intros (HA & HB & HC) Htk Hok Hid Hk. unfold storeInv. rewrite Htk.
  split; [rewrite forallb_app, HA; cbn; now rewrite Hok|].
  split.
  { rewrite map_app. cbn. apply NoDup_snoc; [exact HB|].
    intros Hin. apply in_map_iff in Hin as (r1 & Hr1 & Hin).
    destruct (HC r1 Hin) as (k1 & Hk1 & Hid1).
    rewrite Hid, Hid1 in Hr1. apply uuid_inj in Hr1. lia. }
  intros r1 Hin. apply in_app_or in Hin as [Hin|[<-|[]]].
  - destruct (HC r1 Hin) as (k1 & Hk1 & Hid1). exists k1. split; [lia|exact Hid1].
  - exists k. split; [lia|exact Hid].
Qed.

Lemma after_keeps_storeInv env c w :
  storeInv o w -> storeInv o (after o env c w).
Proof.
  intros Hinv. pose proof (after_cursor_mono o env c w) as Hmono.
  destruct c as [opts|t opts|t reason|u reason|u s|options filters|];
    cbn [after] in *.
  - rewrite generateLoginTokens_run in *. cbn [fst] in *.
    eapply storeInv_append with (k := (6 + cursor w)%nat);
      [exact Hinv|reflexivity|reflexivity|reflexivity|cbn [cursor]; lia].
  - pose proof (refreshAuth_outcome o env w t opts) as Hout.
    destruct (run o (refreshAuth env t opts) w) as [w' r]. cbn [fst] in *.
    inversion Hout; subst;
      try (eapply storeInv_same; [exact Hinv|reflexivity|exact Hmono]).
    + eapply storeInv_delete; eassumption.
    + eapply storeInv_update; try eassumption; [reflexivity|].
      intros; now apply rowOK_revoked.
    + eapply storeInv_same; eassumption.
    + match goal with
      | Hex : exists _, _ /\ id _ = _ |- _ =>
          destruct Hex as (k & Hk & Hid)
      end.
      match goal with Hm : matches_live _ _ _ |- _ =>
        pose proof (find_some _ _ Hm) as [Hdoc Hlive] end.
      unfold live_refresh_with in Hlive.
      apply andb_prop in Hlive as [_ Hlive]. apply negb_true_iff in Hlive.
      eapply storeInv_append with
        (w := {| tokens := update_where (has_id (id doc)) (data_rotated d)
                             (tokens w);
                 cursor := cursor w |}) (k := k);
        [|eassumption| |exact Hid|exact Hk].
      * eapply storeInv_update;
          [exact Hinv|reflexivity|cbn; lia|reflexivity|].
        intros r0 Hin0 Hok Hh. apply has_id_true in Hh.
        destruct Hinv as (_ & HB & _).
        assert (r0 = doc)
          by (apply (NoDup_map_inj id (tokens w)); assumption).
        subst r0. now apply rowOK_rotated.
      * match goal with Hs : successorOf _ _ _ |- _ =>
          destruct (pristine_successor _ _ _ Hs) as [Hp Hw] end.
        unfold rowOK. now rewrite Hp, Hw.
  - rewrite revokeRefreshToken_run in *. cbn [fst] in *.
    eapply storeInv_update; [exact Hinv|reflexivity|exact Hmono|reflexivity|].
    intros; now apply rowOK_revoked.
  - rewrite revokeAllForUser_run in *. cbn [fst] in *.
    eapply storeInv_update; [exact Hinv|reflexivity|exact Hmono|reflexivity|].
    intros; now apply rowOK_revoked.
  - destruct (revokeSession_tokens o u s w) as [Htk|Htk].
    + eapply storeInv_same; eassumption.
    + eapply storeInv_update; try eassumption; [reflexivity|].
      intros; now apply rowOK_revoked.
  - eapply storeInv_same; [exact Hinv| |exact Hmono].
    unfold listUserSessions. now rewrite paginate_run.
  - rewrite cleanupExpiredTokens_run in *. cbn [fst] in *.
    eapply storeInv_delete; [exact Hinv|reflexivity|exact Hmono].
Qed.

Lemma afterAll_keeps_storeInv env calls w :
  storeInv o w -> storeInv o (afterAll o env calls w).
Proof.
  revert w. induction calls as [|c calls IH]; intros w H; [exact H|].
  cbn. apply IH. now apply after_keeps_storeInv.
Qed.

End StoreInvariant.

Lemma unary_inj n m : unary n = unary m -> n = m.
Proof.
  revert m. induction n as [|n IH]; destruct m as [|m]; cbn;
    try discriminate; [reflexivity|].
  intros H. injection H as H. f_equal. now apply IH.
Qed.

(** X25.  If the store never assigns the same id twice, then after any
    sequence of calls of the service from an empty store, each run to
    completion, every record is a refresh record with an [expiresAt], ids
    are unique, and [useCount] is 0 or 1: a record with [useCount = 1] is
    revoked, and a live record has [useCount = 0] and no [revokedAt],
    [revokedReason] or [lastUsedAt]. *)
Theorem history_keeps_records_well_formed
  (o : Oracle) (env : Env) (calls : list Call) :
  (forall n m, db_uuid o n = db_uuid o m -> n = m) ->
  NoDup (map id (tokens (afterAll o env calls emptyWorld)))
  /\ forall r, In r (tokens (afterAll o env calls emptyWorld)) ->
       type r = tokenType.refresh
       /\ (exists e, expiresAt r = Some e)
       /\ (useCount r = 0 \/ (useCount r = 1 /\ isRevoked r = true))
       /\ (isRevoked r = false ->
             useCount r = 0 /\ revokedAt r = None
             /\ revokedReason r = None /\ lastUsedAt r = None).
Proof.
  intros Hinj.
  assert (Hinv : storeInv o (afterAll o env calls emptyWorld)).
  { apply afterAll_keeps_storeInv; [exact Hinj|].
    split; [reflexivity|]. split; [constructor|]. intros r []. }
  destruct Hinv as (HA & HB & _). split; [exact HB|].
  intros r Hin. rewrite forallb_forall in HA. specialize (HA r Hin).
  unfold rowOK, wellFormedRow, pristineIfLive in HA.
  apply andb_prop in HA as [Hw Hp]. apply andb_prop in Hw as [Hw Hu].
  apply andb_prop in Hw as [Hty He].
  split; [now apply tokenType_eqb_eq|].
  split; [destruct (expiresAt r) as [e|]; [now exists e|discriminate]|].
  split.
  { apply orb_prop in Hu as [Hu|Hu]; [left; now apply Z.eqb_eq|].
    apply andb_prop in Hu as [Hu Hr]. right. split; [now apply Z.eqb_eq|exact Hr]. }
  intros Hrev. rewrite Hrev in Hp. cbn in Hp.
  apply andb_prop in Hp as [Hu0 Hp]. apply Z.eqb_eq in Hu0.
  destruct (revokedAt r), (revokedReason r), (lastUsedAt r);
    try discriminate. now repeat split.
Qed.

Lemma history_keeps_records_well_formed_witness :
  NoDup (map id (tokens (afterAll Scenario.uniqueIds Fixture.env
                           Scenario.history emptyWorld)))
  /\ map (fun r => (useCount r, isRevoked r))
         (tokens (afterAll Scenario.uniqueIds Fixture.env
                    Scenario.history emptyWorld))
     = [(1, true); (0, true)].
Proof.
  split; [|reflexivity].
  apply (history_keeps_records_well_formed Scenario.uniqueIds Fixture.env
           Scenario.history).
  exact unary_inj.
Defined.

(* ------------------------------------------------------------------ *)
(** ** The authorization callback *)

(** X26.  [verifyCallback] lets a request through exactly when passport
    reports no error and no info, a user was found who is neither deleted
    nor restricted, and either no right is required or the user's role
    grants at least one of the required rights: one right of the list is
    enough, not all of them.  A user both deleted and restricted is
    answered 401, not 403, and an error from the strategy is answered
    500. *)
Theorem verifyCallback_lets_through
  (roleRights : string -> option (list string))
  (requiredRights : list string)
  (err : option string) (user : option AuthUser.t) (info : option Json) :
  (forall u, verifyCallback roleRights requiredRights err user info = inr u
     <-> err = None /\ user = Some u
         /\ (forall j, info = Some j -> json_truthy j = false)
         /\ AuthUser.isDeleted u = false /\ AuthUser.isRestricted u = false
         /\ (requiredRights = []
             \/ exists right, In right requiredRights
                  /\ In right (getUserPermissions roleRights u)))
  /\ (forall u, err = None -> info = None -> user = Some u ->
        AuthUser.isDeleted u = true ->
        verifyCallback roleRights requiredRights err user info
        = inl UserNotFound)
  /\ (forall m, err = Some m ->
        verifyCallback roleRights requiredRights err user info
        = inl AuthenticationError).
Proof.
  split; [|split].
  - intros u. unfold verifyCallback.
    assert (Hrights :
      (0 <? Z.of_nat (List.length requiredRights))
      && negb (existsb (includes (getUserPermissions roleRights u))
                       requiredRights) = false
      <-> requiredRights = []
          \/ exists right, In right requiredRights
               /\ In right (getUserPermissions roleRights u)).
    { rewrite andb_false_iff, negb_false_iff, existsb_exists.
      split.
      - intros [H|(x & Hx & Hin)].
        + left. destruct requiredRights; [reflexivity|].
          apply Z.ltb_ge in H. cbn [List.length] in H. lia.
        + right. exists x. split; [exact Hx|].
          unfold includes in Hin. apply existsb_exists in Hin as (y & Hy & E).
          apply String.eqb_eq in E. now subst.
      - intros [->|(x & Hx & Hin)]; [now left|].
        right. exists x. split; [exact Hx|].
        unfold includes. apply existsb_exists. exists x.
        split; [exact Hin|apply String.eqb_refl]. }
    destruct err as [m|].
    { split; [discriminate|]. intros (H & _). discriminate H. }
    destruct user as [u0|].
    2:{ split; [discriminate|]. intros (_ & H & _). discriminate H. }
    destruct (match info with Some j => json_truthy j | None => false end)
      eqn:Hinfo.
    { split; [discriminate|]. intros (_ & _ & H & _).
      destruct info as [j|]; [|discriminate].
      rewrite (H j eq_refl) in Hinfo. discriminate. }
    assert (Hi : forall j, info = Some j -> json_truthy j = false)
      by (intros j ->; exact Hinfo).
    destruct (AuthUser.isDeleted u0) eqn:Hd.
    { split; [discriminate|]. intros (_ & H & _ & H' & _).
      injection H as <-. congruence. }
    destruct (AuthUser.isRestricted u0) eqn:Hr.
    { split; [discriminate|]. intros (_ & H & _ & _ & H' & _).
      injection H as <-. congruence. }
    destruct ((0 <? Z.of_nat (List.length requiredRights))
              && negb (existsb (includes (getUserPermissions roleRights u0))
                               requiredRights)) eqn:Hc.
    + split; [discriminate|]. intros (_ & H & _ & _ & _ & H').
      injection H as <-. apply Hrights in H'. congruence.
    + split.
      * intros H. injection H as <-. repeat split; try assumption.
        now apply Hrights.
      * intros (_ & H & _). now injection H as <-.
  - intros u -> -> -> Hd. unfold verifyCallback. now rewrite Hd.
  - intros m ->. reflexivity.
Qed.

Lemma verifyCallback_lets_through_witness :
  verifyCallback
    (fun r => if String.eqb r "admin" then Some ["users"%string] else None)
    ["users"%string; "billing"%string] None
    (Some {| AuthUser.id := "user-1"; AuthUser.role := Some "admin"%string;
             AuthUser.isDeleted := false; AuthUser.isRestricted := false |})
    None
  = inr {| AuthUser.id := "user-1"; AuthUser.role := Some "admin"%string;
           AuthUser.isDeleted := false; AuthUser.isRestricted := false |}.
Proof.
  apply (proj1 (verifyCallback_lets_through _ _ _ _ _)).
  split; [reflexivity|]. split; [reflexivity|].
  split; [discriminate|]. split; [reflexivity|]. split; [reflexivity|].
  right. exists "users"%string. split; left; reflexivity.
Defined.
